(** * CKAN metadata to Schema.org: a shallow embedding of [mapping.py]

    The transformation core of the repository ([try_parse_json_list],
    [cleanup_text], [parse_person_name], [map_to_schema_org]) is embedded
    as executable Rocq functions over a model of the Python values that a
    decoded JSON document can hold.  Python exceptions are explicit: a
    computation that may raise lives in the error monad [Py].

    Python strings are sequences of Unicode code points, so a string is a
    list of code points here; a code point is a natural number ([N]).

    The orchestrator ([fetch_package_list], [fetch_package_details],
    [main]) is embedded over an abstract network: a request takes a state
    of the world to a response and the state after it. *)

From Stdlib Require Import String Ascii.
From Stdlib Require Import List NArith ZArith Bool Lia DecimalString.
From Stdlib Require Import SpecFloat.
From ExtLib Require Import Structures.Monad Structures.MonadExc Data.Monads.EitherMonad.
Import ListNotations.
Import MonadNotation.
Local Open Scope monad_scope.
Local Open Scope list_scope.

(* ===================================================================== *)
(** ** Strings *)
(* ===================================================================== *)

Definition char := N.
Definition pystr := list char.

(** An ASCII literal as a Python string. *)
Definition u (s : string) : pystr := map N_of_ascii (list_ascii_of_string s).

(** An ASCII literal in which every apostrophe stands for a double quote
    (code point 34): JSON text is written with it. *)
Definition uq (s : string) : pystr :=
  map (fun c => if (c =? 39)%N then 34%N else c) (u s).

Arguments u : simpl never.
Arguments uq : simpl never.

Fixpoint str_eqb (a b : pystr) : bool :=
  match a, b with
  | [], [] => true
  | x :: a', y :: b' => (x =? y)%N && str_eqb a' b'
  | _, _ => false
  end.

Definition c_tab : char := 9%N.
Definition c_lf : char := 10%N.
Definition c_ff : char := 12%N.
Definition c_cr : char := 13%N.
Definition c_space : char := 32%N.
Definition c_hash : char := 35%N.
Definition c_amp : char := 38%N.
Definition c_semi : char := 59%N.
Definition c_lt : char := 60%N.
Definition c_gt : char := 62%N.

Definition in_range (lo hi c : N) : bool := ((lo <=? c) && (c <=? hi))%N.

(** [str.isspace] on one code point, which is also what [\s] matches in a
    [str] pattern and what [str.strip()] and [str.split()] treat as
    white space. *)
Definition isspace (c : char) : bool :=
  in_range 9 13 c || in_range 28 32 c || (c =? 133)%N || (c =? 160)%N
  || (c =? 5760)%N || in_range 8192 8202 c || (c =? 8232)%N || (c =? 8233)%N
  || (c =? 8239)%N || (c =? 8287)%N || (c =? 12288)%N.

Fixpoint takewhile (p : char -> bool) (t : pystr) : pystr :=
  match t with
  | c :: r => if p c then c :: takewhile p r else []
  | [] => []
  end.

Fixpoint dropwhile (p : char -> bool) (t : pystr) : pystr :=
  match t with
  | c :: r => if p c then dropwhile p r else t
  | [] => []
  end.

(** [s.strip()] *)
Definition lstrip (t : pystr) : pystr := dropwhile isspace t.
Definition rstrip (t : pystr) : pystr := rev (dropwhile isspace (rev t)).
Definition strip (t : pystr) : pystr := rstrip (lstrip t).

(** [s.split()]: the maximal runs of characters that are not white space.
    [cur] is the token being read. *)
Fixpoint split_from (cur : pystr) (t : pystr) : list pystr :=
  match t with
  | [] => match cur with [] => [] | _ => [cur] end
  | c :: r =>
      if isspace c
      then match cur with [] => split_from [] r | _ => cur :: split_from [] r end
      else split_from (cur ++ [c]) r
  end.

Definition split (t : pystr) : list pystr := split_from [] t.

(** [sep.join(parts)] *)
Fixpoint join (sep : pystr) (parts : list pystr) : pystr :=
  match parts with
  | [] => []
  | [p] => p
  | p :: rest => p ++ sep ++ join sep rest
  end.

(** [s.replace(old, new)] for one-character [old] and [new]. *)
Definition replace_char (old new : char) (t : pystr) : pystr :=
  map (fun c => if (c =? old)%N then new else c) t.

(** *** Tokens *)

Definition nonspace (c : char) : bool := negb (isspace c).

(** A text that does not start with white space. *)
Definition starts_word (t : pystr) : bool :=
  match t with
  | [] => true
  | c :: _ => nonspace c
  end.

(** A token: not empty, and free of white space. *)
Definition word (w : pystr) : Prop := w <> [] /\ forallb nonspace w = true.

(* ===================================================================== *)
(** ** Regular-expression substitution *)
(* ===================================================================== *)

(** A pattern is given by what it matches at the start of a text: the
    length of the match (never zero for the patterns of this program) and
    the text that replaces it. *)
Definition matcher := pystr -> option (nat * pystr).

(** [re.sub]: scan from the left; at a match emit the replacement and
    resume after the matched text, otherwise copy one character.  [skip]
    counts the characters of the current match that are still to pass. *)
Fixpoint re_sub (m : matcher) (skip : nat) (t : pystr) : pystr :=
  match t with
  | [] => []
  | c :: r =>
      match skip with
      | S k => re_sub m k r
      | O =>
          match m t with
          | Some (n, rep) => rep ++ re_sub m (Nat.pred n) r
          | None => c :: re_sub m 0 r
          end
      end
  end.

(** [re.search(...) is not None] *)
Fixpoint re_search (m : matcher) (t : pystr) : bool :=
  match t with
  | [] => false
  | _ :: r => match m t with Some _ => true | None => re_search m r end
  end.

Fixpoint index_of (c : char) (t : pystr) : option nat :=
  match t with
  | [] => None
  | x :: r => if (x =? c)%N then Some 0 else option_map S (index_of c r)
  end.

(** [<[^>]*>] replaced by one space. *)
Definition tag_re : matcher := fun t =>
  match t with
  | c :: r =>
      if (c =? c_lt)%N
      then match index_of c_gt r with
           | Some i => Some (i + 2, [c_space])
           | None => None
           end
      else None
  | [] => None
  end.

(** [\s+] replaced by one space. *)
Definition ws_re : matcher := fun t =>
  match takewhile isspace t with
  | [] => None
  | run => Some (length run, [c_space])
  end.

(* ===================================================================== *)
(** ** Python values *)
(* ===================================================================== *)

(** The values a decoded JSON document holds: [None], [bool], [int],
    [float] (a binary64 number), [str], [list] and [dict] with string
    keys.  A [dict] keeps its keys in insertion order, as Python's does. *)
#[warnings="-register-all"]
Inductive PyVal : Type :=
| VNone
| VBool (b : bool)
| VInt (z : Z)
| VFloat (f : spec_float)
| VStr (s : pystr)
| VList (l : list PyVal)
| VDict (d : list (pystr * PyVal)).

Definition dict := list (pystr * PyVal).

(** [bool(v)]: the truth value that [if v], [not v] and [v or w] test.
    A [float] is falsy when it is a zero of either sign. *)
Definition truthy (v : PyVal) : bool :=
  match v with
  | VNone => false
  | VBool b => b
  | VInt z => negb (z =? 0)%Z
  | VFloat f => match f with S754_zero _ => false | _ => true end
  | VStr s => match s with [] => false | _ => true end
  | VList l => match l with [] => false | _ => true end
  | VDict d => match d with [] => false | _ => true end
  end.

Definition isinstance_str (v : PyVal) : bool :=
  match v with VStr _ => true | _ => false end.
Definition isinstance_list (v : PyVal) : bool :=
  match v with VList _ => true | _ => false end.
Definition isinstance_dict (v : PyVal) : bool :=
  match v with VDict _ => true | _ => false end.

Fixpoint dict_lookup (d : dict) (k : pystr) : option PyVal :=
  match d with
  | [] => None
  | (k', v) :: rest => if str_eqb k' k then Some v else dict_lookup rest k
  end.

(** [k in d] *)
Definition dict_has (d : dict) (k : pystr) : bool :=
  match dict_lookup d k with Some _ => true | None => false end.

(** [d.get(k)] and [d.get(k, default)] *)
Definition dict_get_default (d : dict) (k : pystr) (default : PyVal) : PyVal :=
  match dict_lookup d k with Some v => v | None => default end.
Definition dict_get (d : dict) (k : pystr) : PyVal := dict_get_default d k VNone.

(** [d[k] = v]: an existing key keeps its place. *)
Fixpoint dict_set (d : dict) (k : pystr) (v : PyVal) : dict :=
  match d with
  | [] => [(k, v)]
  | (k', v') :: rest =>
      if str_eqb k' k then (k', v) :: rest else (k', v') :: dict_set rest k v
  end.

(** [d.update(other)] *)
Definition dict_update (d other : dict) : dict :=
  fold_left (fun acc kv => dict_set acc (fst kv) (snd kv)) other d.

(* ===================================================================== *)
(** ** Exceptions *)
(* ===================================================================== *)

Inductive PyExc : Type :=
| AttributeError
| TypeError
| KeyError
| JSONDecodeError.

Definition exc_eqb (a b : PyExc) : bool :=
  match a, b with
  | AttributeError, AttributeError
  | TypeError, TypeError
  | KeyError, KeyError
  | JSONDecodeError, JSONDecodeError => true
  | _, _ => false
  end.

(** A computation that returns ([inr]) or raises ([inl]). *)
Definition Py : Type -> Type := sum PyExc.

(** [try: body  except (classes): handler] *)
Definition try_except {A} (body : Py A) (classes : list PyExc) (handler : Py A) : Py A :=
  catch body (fun e => if existsb (exc_eqb e) classes then handler else raise e).

(** ** Operations that depend on the type of their receiver *)

(** [v.get(k)]: only a [dict] has the method. *)
Definition py_get (v : PyVal) (k : pystr) : Py PyVal :=
  match v with
  | VDict d => ret (dict_get d k)
  | _ => raise AttributeError
  end.

(** [v.strip().split()]: only a [str] has the method [strip]. *)
Definition py_strip_split (v : PyVal) : Py (list pystr) :=
  match v with
  | VStr s => ret (split (strip s))
  | _ => raise AttributeError
  end.

(** [for x in v]: the sequence of values the loop visits. *)
Definition py_iter (v : PyVal) : Py (list PyVal) :=
  match v with
  | VList l => ret l
  | VDict d => ret (map (fun kv => VStr (fst kv)) d)
  | VStr s => ret (map (fun c => VStr [c]) s)
  | _ => raise TypeError
  end.

Fixpoint prefix_eqb (p t : pystr) : bool :=
  match p, t with
  | [], _ => true
  | x :: p', y :: t' => (x =? y)%N && prefix_eqb p' t'
  | _ :: _, [] => false
  end.

Fixpoint substring (p t : pystr) : bool :=
  prefix_eqb p t || match t with [] => false | _ :: r => substring p r end.

(** [k in v] for a string [k]: key membership in a [dict], element
    membership in a [list], substring test in a [str]. *)
Definition py_contains (k : pystr) (v : PyVal) : Py bool :=
  match v with
  | VDict d => ret (dict_has d k)
  | VList l => ret (existsb (fun e => match e with VStr s => str_eqb s k | _ => false end) l)
  | VStr s => ret (substring k s)
  | _ => raise TypeError
  end.

(** [v[k]] for a string [k] *)
Definition py_getitem (v : PyVal) (k : pystr) : Py PyVal :=
  match v with
  | VDict d => match dict_lookup d k with Some x => ret x | None => raise KeyError end
  | _ => raise TypeError
  end.

(* ===================================================================== *)
(** ** The Python library the program calls *)
(* ===================================================================== *)

(** What the program takes from the Python library and the interpreter:
    - [json_loads s] is [json.loads(s)] on a string: the decoded value, or
      [None] when the library raises [JSONDecodeError].  The interpreter's
      resource limits (recursion depth, the digit limit of integer
      literals) are outside the model;
    - [html5 name] is the table [html.entities.html5] of named character
      references, keyed without the leading ampersand;
    - [py_repr v] is [repr(v)] for a [float], a [list] or a [dict]. *)
Class Runtime : Type := {
  json_loads : pystr -> option PyVal;
  html5 : pystr -> option pystr;
  py_repr : PyVal -> pystr
}.

(* ===================================================================== *)
(** ** [html.unescape] *)
(* ===================================================================== *)

(** The function as the Python library defines it: the pattern [_charref]
    finds the character references, and [_replace_charref] gives the text
    that replaces each one.  The two tables of numeric references are the
    library's; the table of names is the runtime's [html5]. *)

Definition is_digit (c : char) : bool := in_range 48 57 c.
Definition is_hex (c : char) : bool :=
  in_range 48 57 c || in_range 65 70 c || in_range 97 102 c.
Definition is_x (c : char) : bool := (c =? 120)%N || (c =? 88)%N.

(** [[^\t\n\f <&#;]] *)
Definition name_char (c : char) : bool :=
  negb ((c =? c_tab)%N || (c =? c_lf)%N || (c =? c_ff)%N || (c =? c_space)%N
        || (c =? c_lt)%N || (c =? c_amp)%N || (c =? c_hash)%N || (c =? c_semi)%N).

(** The optional [;] that ends a character reference. *)
Definition opt_semi (r : pystr) : pystr :=
  match r with
  | c :: _ => if (c =? c_semi)%N then [c_semi] else []
  | [] => []
  end.

(** The group of [_charref] matched on the text [r] that follows an
    ampersand: [#[0-9]+;?], else [#[xX][0-9a-fA-F]+;?], else
    [[^\t\n\f <&#;]{1,32};?]. *)
Definition match_charref (r : pystr) : option pystr :=
  match r with
  | [] => None
  | h :: r1 =>
      if (h =? c_hash)%N then
        match takewhile is_digit r1 with
        | (_ :: _) as ds => Some (h :: ds ++ opt_semi (skipn (length ds) r1))
        | [] =>
            match r1 with
            | x :: r2 =>
                if is_x x then
                  match takewhile is_hex r2 with
                  | (_ :: _) as hs => Some (h :: x :: hs ++ opt_semi (skipn (length hs) r2))
                  | [] => None
                  end
                else None
            | [] => None
            end
        end
      else
        match takewhile name_char (firstn 32 r) with
        | (_ :: _) as nm => Some (nm ++ opt_semi (skipn (length nm) r))
        | [] => None
        end
  end.

Definition digit_value (c : char) : N :=
  if in_range 48 57 c then c - 48
  else if in_range 65 70 c then c - 55
  else c - 87.

(** [int(digits, base)] *)
Definition int_of (base : N) (digits : pystr) : N :=
  fold_left (fun acc c => acc * base + digit_value c)%N digits 0%N.

(** [s.rstrip(';')] *)
Definition rstrip_semi (s : pystr) : pystr :=
  rev (dropwhile (fun c => (c =? c_semi)%N) (rev s)).

Definition _invalid_charrefs : list (N * char) :=
  [ (0x00, 0xfffd); (0x0d, 0x0d); (0x80, 0x20ac); (0x81, 0x81); (0x82, 0x201a);
    (0x83, 0x0192); (0x84, 0x201e); (0x85, 0x2026); (0x86, 0x2020);
    (0x87, 0x2021); (0x88, 0x02c6); (0x89, 0x2030); (0x8a, 0x0160);
    (0x8b, 0x2039); (0x8c, 0x0152); (0x8d, 0x8d); (0x8e, 0x017d); (0x8f, 0x8f);
    (0x90, 0x90); (0x91, 0x2018); (0x92, 0x2019); (0x93, 0x201c);
    (0x94, 0x201d); (0x95, 0x2022); (0x96, 0x2013); (0x97, 0x2014);
    (0x98, 0x02dc); (0x99, 0x2122); (0x9a, 0x0161); (0x9b, 0x203a);
    (0x9c, 0x0153); (0x9d, 0x9d); (0x9e, 0x017e); (0x9f, 0x0178) ]%N.

Definition _invalid_codepoints (n : N) : bool :=
  in_range 0x1 0x8 n || in_range 0xe 0x1f n || in_range 0x7f 0x9f n
  || in_range 0xfdd0 0xfdef n
  || existsb (N.eqb n)
       [ 0xb; 0xfffe; 0xffff; 0x1fffe; 0x1ffff; 0x2fffe; 0x2ffff; 0x3fffe;
         0x3ffff; 0x4fffe; 0x4ffff; 0x5fffe; 0x5ffff; 0x6fffe; 0x6ffff;
         0x7fffe; 0x7ffff; 0x8fffe; 0x8ffff; 0x9fffe; 0x9ffff; 0xafffe;
         0xaffff; 0xbfffe; 0xbffff; 0xcfffe; 0xcffff; 0xdfffe; 0xdffff;
         0xefffe; 0xeffff; 0xffffe; 0xfffff; 0x10fffe; 0x10ffff ]%N.

Fixpoint assoc_N (n : N) (t : list (N * char)) : option char :=
  match t with
  | [] => None
  | (k, v) :: rest => if (k =? n)%N then Some v else assoc_N n rest
  end.

Section Unescape.
Context {R : Runtime}.

(** The loop of [_replace_charref] over the prefixes [s[:x]] of a name
    that is not in the table, for [x = n + 2] down to [2]. *)
Fixpoint longest_prefix (s : pystr) (n : nat) : pystr :=
  match html5 (firstn (n + 2) s) with
  | Some v => v ++ skipn (n + 2) s
  | None =>
      match n with
      | O => c_amp :: s
      | S n' => longest_prefix s n'
      end
  end.

(** [_replace_charref] on the group [s] of a match. *)
Definition _replace_charref (s : pystr) : pystr :=
  match s with
  | [] => []
  | h :: s1 =>
      if (h =? c_hash)%N then
        let num :=
          match s1 with
          | x :: s2 => if is_x x then int_of 16 (rstrip_semi s2)
                       else int_of 10 (rstrip_semi s1)
          | [] => 0%N
          end in
        match assoc_N num _invalid_charrefs with
        | Some c => [c]
        | None =>
            if in_range 0xD800 0xDFFF num || (0x10FFFF <? num)%N then [0xFFFD%N]
            else if _invalid_codepoints num then []
            else [num]
        end
      else
        match html5 s with
        | Some v => v
        | None =>
            if length s <? 3 then c_amp :: s
            else longest_prefix s (length s - 3)
        end
  end.

(** The pattern [_charref] with [_replace_charref] as its replacement. *)
Definition charref_re : matcher := fun t =>
  match t with
  | c :: r =>
      if (c =? c_amp)%N
      then match match_charref r with
           | Some g => Some (S (length g), _replace_charref g)
           | None => None
           end
      else None
  | [] => None
  end.

(** [html.unescape(s)] *)
Definition unescape (s : pystr) : pystr :=
  if negb (existsb (N.eqb c_amp) s) then s
  else re_sub charref_re 0 s.

End Unescape.

(* ===================================================================== *)
(** ** [mapping.py] *)
(* ===================================================================== *)

(** The four functions of the transformation core, in the order of the
    file.  The fetch functions and [main] are input and output around
    them and are not embedded. *)

Section Mapping.
Context {R : Runtime}.

(** [try_parse_json_list] (lines 51-61). *)
Definition try_parse_json_list (value : PyVal) : Py PyVal :=
  if negb (truthy value) || negb (isinstance_str value) then ret (VList [])
  else
    try_except
      (parsed <- match value with
                 | VStr s => match json_loads s with
                             | Some v => ret v
                             | None => raise JSONDecodeError
                             end
                 | _ => raise TypeError
                 end ;;
       if isinstance_list parsed then ret parsed
       else ret (if isinstance_dict parsed then VList [parsed] else VList []))
      [JSONDecodeError; TypeError]
      (ret (VList [])).

(** [cleanup_text] (lines 64-76). *)
Definition cleanup_text (text : PyVal) : pystr :=
  if negb (truthy text) || negb (isinstance_str text) then []
  else
    match text with
    | VStr text =>
        let text := re_sub tag_re 0 text in
        let text := unescape text in
        let text := replace_char c_lf c_space (replace_char c_cr c_space text) in
        let text := strip (re_sub ws_re 0 text) in
        text
    | _ => []
    end.

(** [parse_person_name] (lines 78-99). *)
Definition parse_person_name (name : PyVal) : Py dict :=
  if negb (truthy name) then ret []
  else
    parts <- py_strip_split name ;;
    match length parts with
    | 0 => ret []
    | 1 => ret [(u "name", name); (u "givenName", name)]
    | _ =>
        let given_name := join (u " ") (removelast parts) in
        let family_name := last parts [] in
        ret [(u "name", name);
             (u "givenName", VStr given_name);
             (u "familyName", VStr family_name)]
    end.

(** [str(v)], which is what an f-string field [{v}] renders. *)
Definition py_str (v : PyVal) : pystr :=
  match v with
  | VStr s => s
  | VNone => u "None"
  | VBool true => u "True"
  | VBool false => u "False"
  | VInt z => u (NilEmpty.string_of_int (Z.to_int z))
  | _ => py_repr v
  end.

(** The two loops that build the [creators] (lines 107-114) and the
    [maintainers] (lines 118-125); they differ in the two keys they read,
    [name_key] and [email_key].  [people] is the list built so far. *)
Fixpoint person_loop (name_key email_key : pystr)
    (entries : list PyVal) (people : list PyVal) : Py (list PyVal) :=
  match entries with
  | [] => ret people
  | auth :: rest =>
      name <- py_get auth name_key ;;
      let person := [(u "@type", VStr (u "Person"))] in
      parsed <- parse_person_name name ;;
      let person := dict_update person parsed in
      email <- py_get auth email_key ;;
      person <- (if truthy email
                 then email <- py_get auth email_key ;;
                      ret (dict_set person (u "email") email)
                 else ret person) ;;
      if truthy (dict_get person (u "name"))
      then person_loop name_key email_key rest (people ++ [VDict person])
      else person_loop name_key email_key rest people
  end.

(** The comprehension that builds [keywords] (line 128). *)
Fixpoint keywords_loop (tags : list PyVal) : Py (list PyVal) :=
  match tags with
  | [] => ret []
  | tag :: rest =>
      has <- py_contains (u "display_name") tag ;;
      if has : bool
      then v <- py_getitem tag (u "display_name") ;;
           vs <- keywords_loop rest ;;
           ret (v :: vs)
      else keywords_loop rest
  end.

(** The loop that builds [distributions] (lines 131-140). *)
Fixpoint distributions_loop (resources : list PyVal) (distributions : list PyVal)
    : Py (list PyVal) :=
  match resources with
  | [] => ret distributions
  | res :: rest =>
      name <- py_get res (u "name") ;;
      url <- py_get res (u "url") ;;
      format <- py_get res (u "format") ;;
      description <- py_get res (u "description") ;;
      let dist := [ (u "@type", VStr (u "DataDownload"));
                    (u "name", name);
                    (u "contentUrl", url);
                    (u "encodingFormat", format);
                    (u "description", VStr (cleanup_text description)) ] in
      distributions_loop rest (distributions ++ [VDict dist])
  end.

Definition dataset_base_url : pystr := u "http://129.187.232.198:5000/dataset/".

(** [map_to_schema_org] (lines 101-168). *)
Definition map_to_schema_org (ckan_data : dict) : Py dict :=
  authors_raw <- try_parse_json_list (dict_get ckan_data (u "author")) ;;
  authors <- py_iter authors_raw ;;
  creators <- person_loop (u "author_name") (u "author_email") authors [] ;;
  maintainers_raw <- try_parse_json_list (dict_get ckan_data (u "maintainer")) ;;
  maints <- py_iter maintainers_raw ;;
  maintainers <- person_loop (u "maintainer_name") (u "maintainer_email") maints [] ;;
  tags <- py_iter (dict_get_default ckan_data (u "tags") (VList [])) ;;
  keywords <- keywords_loop tags ;;
  resources <- py_iter (dict_get_default ckan_data (u "resources") (VList [])) ;;
  distributions <- distributions_loop resources [] ;;
  let license_url := dict_get ckan_data (u "license_url") in
  let schema_org :=
    [ (u "@context", VStr (u "https://schema.org/"));
      (u "@type", VStr (u "Dataset"));
      (u "name", dict_get ckan_data (u "title"));
      (u "description", VStr (cleanup_text (dict_get ckan_data (u "notes"))));
      (u "identifier", dict_get ckan_data (u "id"));
      (u "url", VStr (dataset_base_url ++ py_str (dict_get ckan_data (u "name"))));
      (u "license", if truthy license_url then license_url
                    else dict_get ckan_data (u "license_title"));
      (u "datePublished", dict_get ckan_data (u "metadata_created"));
      (u "dateModified", dict_get ckan_data (u "metadata_modified"));
      (u "inLanguage", dict_get ckan_data (u "language"));
      (u "keywords", VList keywords);
      (u "creator", VList creators);
      (u "maintainer", VList maintainers);
      (u "distribution", VList distributions) ] in
  let org_data := dict_get ckan_data (u "organization") in
  if truthy org_data
  then title <- py_get org_data (u "title") ;;
       description <- py_get org_data (u "description") ;;
       ret (dict_set schema_org (u "publisher")
              (VDict [ (u "@type", VStr (u "Organization"));
                       (u "name", title);
                       (u "description", description) ]))
  else ret schema_org.

End Mapping.

(* ===================================================================== *)
(** ** A reference runtime *)
(* ===================================================================== *)

(** The closed examples below run the program on a concrete runtime: a
    decoder for the JSON grammar that [json.loads] accepts, written after
    the library's [scanner] and [decoder] modules, and the entries of
    [html.entities.html5] that the examples consult.  The general
    theorems hold for every [Runtime]. *)

Module Json.

Definition ws (c : char) : bool :=
  (c =? 32)%N || (c =? 9)%N || (c =? 10)%N || (c =? 13)%N.
Definition skip_ws (t : pystr) : pystr := dropwhile ws t.

(** Four hexadecimal digits of a [\uXXXX] escape. *)
Definition hex4 (t : pystr) : option (N * pystr) :=
  match t with
  | a :: b :: c :: d :: r =>
      if is_hex a && is_hex b && is_hex c && is_hex d
      then Some (int_of 16 [a; b; c; d], r)
      else None
  | _ => None
  end.

(** [BACKSLASH] *)
Definition backslash (e : char) : option char :=
  if (e =? 34)%N then Some 34%N
  else if (e =? 92)%N then Some 92%N
  else if (e =? 47)%N then Some 47%N
  else if (e =? 98)%N then Some 8%N
  else if (e =? 102)%N then Some 12%N
  else if (e =? 110)%N then Some 10%N
  else if (e =? 114)%N then Some 13%N
  else if (e =? 116)%N then Some 9%N
  else None.

(** [scanstring] in strict mode, on the text after the opening quote: the
    decoded string and the text after the closing quote. *)
Fixpoint scanstring (fuel : nat) (acc t : pystr) : option (pystr * pystr) :=
  match fuel, t with
  | S fuel, c :: r =>
      if (c =? 34)%N then Some (acc, r)
      else if (c =? 92)%N then
        match r with
        | [] => None
        | e :: r1 =>
            if (e =? 117)%N then
              match hex4 r1 with
              | None => None
              | Some (uni, r2) =>
                  let alone := scanstring fuel (acc ++ [uni]) r2 in
                  if in_range 0xD800 0xDBFF uni then
                    match r2 with
                    | 92%N :: 117%N :: r3 =>
                        match hex4 r3 with
                        | None => None
                        | Some (uni2, r4) =>
                            if in_range 0xDC00 0xDFFF uni2
                            then scanstring fuel
                                   (acc ++ [0x10000 + N.lor (N.shiftl (uni - 0xD800) 10)
                                                            (uni2 - 0xDC00)])%N r4
                            else alone
                        end
                    | _ => alone
                    end
                  else alone
              end
            else
              match backslash e with
              | Some ch => scanstring fuel (acc ++ [ch]) r1
              | None => None
              end
        end
      else if (c <? 0x20)%N then None
      else scanstring fuel (acc ++ [c]) r
  | _, _ => None
  end.

(** [float(text)] for the decimal numeral [m * 10^e], rounded to the
    nearest binary64 value (precision 53, exponents below 1024), ties to
    even.  A negative exponent divides: the quotient keeps 64 bits or
    more, and one more bit records whether the division left a
    remainder. *)
Definition float_of_decimal (neg : bool) (m : N) (e : Z) : spec_float :=
  match m with
  | N0 => S754_zero neg
  | Npos p =>
      if (0 <=? e)%Z
      then binary_round 53 1024 neg (p * Z.to_pos (10 ^ e))%positive 0
      else
        let d := (10 ^ (- e))%Z in
        let s := (Z.log2_up d + 64)%Z in
        let num := (Zpos p * 2 ^ s)%Z in
        let sticky := if (num mod d =? 0)%Z then 0%Z else 1%Z in
        binary_round 53 1024 neg (Z.to_pos (2 * (num / d) + sticky)) (- s - 1)
  end.

(** A number: an optional minus sign, then [0] or a run of digits that
    does not start with [0], then an optional fraction (a point and
    digits) and an optional exponent ([e] or [E], a sign, digits). *)
Definition scan_number (t : pystr) : option (PyVal * pystr) :=
  let '(neg, t1) :=
    match t with
    | 45%N :: r => (true, r)
    | _ => (false, t)
    end in
  match t1 with
  | [] => None
  | d :: r =>
      if is_digit d then
        let '(ints, t2) :=
          if (d =? 48)%N then ([d], r)
          else (d :: takewhile is_digit r, dropwhile is_digit r) in
        let '(frac, t3) :=
          match t2 with
          | 46%N :: r' =>
              match takewhile is_digit r' with
              | [] => ([], t2)
              | fd => (fd, dropwhile is_digit r')
              end
          | _ => ([], t2)
          end in
        let '(exp, t4) :=
          match t3 with
          | x :: r' =>
              if (x =? 101)%N || (x =? 69)%N then
                let '(eneg, r'') :=
                  match r' with
                  | 45%N :: q => (true, q)
                  | 43%N :: q => (false, q)
                  | _ => (false, r')
                  end in
                match takewhile is_digit r'' with
                | [] => (None, t3)
                | ed => (Some (if eneg : bool then (- Z.of_N (int_of 10 ed))%Z
                               else Z.of_N (int_of 10 ed)),
                         dropwhile is_digit r'')
                end
              else (None, t3)
          | [] => (None, t3)
          end in
        match frac, exp with
        | [], None =>
            Some (VInt (if neg then (- Z.of_N (int_of 10 ints))%Z
                        else Z.of_N (int_of 10 ints)), t4)
        | _, _ =>
            Some (VFloat (float_of_decimal neg (int_of 10 (ints ++ frac))
                            (match exp with Some e => e | None => 0%Z end
                             - Z.of_nat (length frac))%Z), t4)
        end
      else None
  end.

(** [dict(pairs)] *)
Definition dict_of_pairs (pairs : list (pystr * PyVal)) : dict :=
  dict_update [] pairs.

(** [scan_once], [JSONArray] and [JSONObject].  [fuel] bounds the number
    of nested calls; a decoder that runs out of it answers [None]. *)
Fixpoint scan_once (fuel : nat) (t : pystr) : option (PyVal * pystr) :=
  match fuel, t with
  | S fuel, c :: r =>
      if (c =? 34)%N then
        match scanstring (length r) [] r with
        | Some (s, r') => Some (VStr s, r')
        | None => None
        end
      else if (c =? 123)%N then
        match skip_ws r with
        | 125%N :: r' => Some (VDict [], r')
        | 34%N :: r' =>
            match JSONObject fuel [] r' with
            | Some (pairs, r'') => Some (VDict (dict_of_pairs pairs), r'')
            | None => None
            end
        | _ => None
        end
      else if (c =? 91)%N then
        match skip_ws r with
        | 93%N :: r' => Some (VList [], r')
        | r' =>
            match JSONArray fuel [] r' with
            | Some (values, r'') => Some (VList values, r'')
            | None => None
            end
        end
      else if prefix_eqb (u "null") t then Some (VNone, skipn 4 t)
      else if prefix_eqb (u "true") t then Some (VBool true, skipn 4 t)
      else if prefix_eqb (u "false") t then Some (VBool false, skipn 5 t)
      else
        match scan_number t with
        | Some res => Some res
        | None =>
            if prefix_eqb (u "NaN") t then Some (VFloat S754_nan, skipn 3 t)
            else if prefix_eqb (u "Infinity") t then Some (VFloat (S754_infinity false), skipn 8 t)
            else if prefix_eqb (u "-Infinity") t then Some (VFloat (S754_infinity true), skipn 9 t)
            else None
        end
  | _, _ => None
  end

(** The values of an array, on the text where the next value starts. *)
with JSONArray (fuel : nat) (values : list PyVal) (t : pystr)
    : option (list PyVal * pystr) :=
  match fuel with
  | O => None
  | S fuel =>
      match scan_once fuel t with
      | None => None
      | Some (value, r) =>
          match skip_ws r with
          | 93%N :: r' => Some (values ++ [value], r')
          | 44%N :: r' => JSONArray fuel (values ++ [value]) (skip_ws r')
          | _ => None
          end
      end
  end

(** The pairs of an object, on the text after the quote that opens the
    next key. *)
with JSONObject (fuel : nat) (pairs : list (pystr * PyVal)) (t : pystr)
    : option (list (pystr * PyVal) * pystr) :=
  match fuel with
  | O => None
  | S fuel =>
      match scanstring (length t) [] t with
      | None => None
      | Some (key, r) =>
          match skip_ws r with
          | 58%N :: r1 =>
              match scan_once fuel (skip_ws r1) with
              | None => None
              | Some (value, r2) =>
                  match skip_ws r2 with
                  | 125%N :: r3 => Some (pairs ++ [(key, value)], r3)
                  | 44%N :: r3 =>
                      match skip_ws r3 with
                      | 34%N :: r4 => JSONObject fuel (pairs ++ [(key, value)]) r4
                      | _ => None
                      end
                  | _ => None
                  end
              end
          | _ => None
          end
      end
  end.

(** [JSONDecoder.decode]: one value between optional white space, and
    nothing after it. *)
Definition loads (s : pystr) : option PyVal :=
  match scan_once (2 * length s + 2) (skip_ws s) with
  | Some (v, r) => match skip_ws r with [] => Some v | _ => None end
  | None => None
  end.

End Json.

(** The entries of [html.entities.html5] for the characters that HTML
    escapes. *)
Definition html5_excerpt : list (string * N) :=
  [ ("amp;", 38); ("amp", 38); ("AMP;", 38); ("AMP", 38);
    ("lt;", 60); ("lt", 60); ("LT;", 60); ("LT", 60);
    ("gt;", 62); ("gt", 62); ("GT;", 62); ("GT", 62);
    ("quot;", 34); ("quot", 34); ("QUOT;", 34); ("QUOT", 34);
    ("apos;", 39); ("nbsp;", 160); ("nbsp", 160) ]%string%N.

Fixpoint html5_lookup (table : list (string * N)) (name : pystr) : option pystr :=
  match table with
  | [] => None
  | (k, v) :: rest => if str_eqb (u k) name then Some [v] else html5_lookup rest name
  end.

(** A stand-in for [repr] of a [float] or a container: the records of
    the examples below give their [name] as a string, so the examples
    never call it. *)
Definition repr_unused (v : PyVal) : pystr := [].

#[export] Instance reference : Runtime := {
  json_loads := Json.loads;
  html5 := html5_lookup html5_excerpt;
  py_repr := repr_unused
}.

(* ===================================================================== *)
(** ** What the specification says, as definitions of its own *)
(* ===================================================================== *)

Section Described.
Context {R : Runtime}.

(** The fields the name parser gives for a name, when it returns. *)
Definition name_fields (name : PyVal) : dict :=
  match parse_person_name name with
  | inr fields => fields
  | inl _ => []
  end.

(** The Person described for one decoded entry: built from the name under
    [name_key] by the name parser, with the value under [email_key]
    attached as [email] when that value is truthy. *)
Definition person_of (name_key email_key : pystr) (entry : PyVal) : dict :=
  match entry with
  | VDict e =>
      let person := dict_update [(u "@type", VStr (u "Person"))]
                      (name_fields (dict_get e name_key)) in
      if truthy (dict_get e email_key)
      then dict_set person (u "email") (dict_get e email_key)
      else person
  | _ => []
  end.

(** A Person that ended up with a non-empty name. *)
Definition has_name (person : dict) : bool := truthy (dict_get person (u "name")).

(** The described list of persons: one per entry, those without a name
    left out. *)
Definition people_of (name_key email_key : pystr) (entries : list PyVal) : list PyVal :=
  map VDict (filter has_name (map (person_of name_key email_key) entries)).

(** A tag that possesses a [display_name] field, and the value of that
    field. *)
Definition has_display_name (tag : PyVal) : bool :=
  match tag with
  | VDict d => dict_has d (u "display_name")
  | _ => false
  end.

Definition display_name (tag : PyVal) : PyVal :=
  match tag with
  | VDict d => dict_get d (u "display_name")
  | _ => VNone
  end.

(** The raw value of a field of a resource, [None] when it is absent. *)
Definition raw_field (res : PyVal) (k : pystr) : PyVal :=
  match res with
  | VDict d => dict_get d k
  | _ => VNone
  end.

(** The DataDownload described for one resource. *)
Definition download_of (res : PyVal) : PyVal :=
  VDict [ (u "@type", VStr (u "DataDownload"));
          (u "name", raw_field res (u "name"));
          (u "contentUrl", raw_field res (u "url"));
          (u "encodingFormat", raw_field res (u "format"));
          (u "description", VStr (cleanup_text (raw_field res (u "description")))) ].

(** The Organization described for the [organization] field. *)
Definition organization_of (org : PyVal) : PyVal :=
  VDict [ (u "@type", VStr (u "Organization"));
          (u "name", raw_field org (u "title"));
          (u "description", raw_field org (u "description")) ].

(** *** Records the mapper is written for *)


(** An entry of [author] or [maintainer]: a mapping whose name is a
    string or falsy. *)
Definition entry_ok (name_key : pystr) (entry : PyVal) : bool :=
  match entry with
  | VDict e => let name := dict_get e name_key in
               negb (truthy name) || isinstance_str name
  | _ => false
  end.



End Described.

(** *** Records of the examples *)

(** The record of the repository's test [test_map_to_schema_org]. *)
Definition mock_ckan : dict :=
  [ (u "title", VStr (u "Test Dataset"));
    (u "notes", VStr (u "Description with <p>tags</p>"));
    (u "id", VStr (u "123"));
    (u "name", VStr (u "test-dataset"));
    (u "license_title", VStr (u "MIT"));
    (u "metadata_created", VStr (u "2024-01-01"));
    (u "tags", VList [VDict [(u "display_name", VStr (u "Tag1"))]]);
    (u "author",
     VStr (uq "[{'author_name': 'Jane Smith', 'author_email': 'jane@example.com'}]"));
    (u "resources",
     VList [VDict [ (u "name", VStr (u "Resource 1"));
                    (u "url", VStr (u "http://res.url"));
                    (u "format", VStr (u "CSV")) ]]) ].

(** What the mapper returns on [mock_ckan]. *)
Definition mock_dataset : dict :=
  Eval vm_compute in
    match map_to_schema_org mock_ckan with
    | inr out => out
    | inl _ => []
    end.

(** A record with an organization and with license fields. *)
Definition licensed_ckan : dict :=
  [ (u "name", VStr (u "air-quality"));
    (u "license_url", VStr (u "https://opensource.org/licenses/MIT"));
    (u "license_title", VStr (u "MIT"));
    (u "organization",
     VDict [ (u "title", VStr (u "Lab")); (u "description", VStr (u "A lab")) ]) ].

Definition licensed_dataset : dict :=
  Eval vm_compute in
    match map_to_schema_org licensed_ckan with
    | inr out => out
    | inl _ => []
    end.

(* ===================================================================== *)
(** ** The fetch orchestrator *)
(* ===================================================================== *)

(** What [requests.get] returns, by what its two methods do:
    [status_ok] tells whether [raise_for_status()] returns (it raises
    otherwise), and [json] is the value [json()] returns, [None] when it
    raises. *)
Record Response : Type := {
  status_ok : bool;
  json : option PyVal
}.

(** The network.  A request changes the state of the world and gives a
    response, or [None] when [requests.get] raises. *)
Class Http : Type := {
  World : Type;
  http_get : pystr -> World -> option Response * World
}.

(** What can be raised around a request: an exception of [requests]
    (they all derive from [RequestException]), or one of the program's
    own operations. *)
Inductive FetchExc : Type :=
| RequestException
| Raised (e : PyExc).

(** A computation that talks to the network: from a state of the world,
    a value or an exception, and the state after it. *)
Definition IO {H : Http} (A : Type) : Type := World -> (FetchExc + A) * World.

#[export] Instance Monad_IO {H : Http} : Monad IO := {
  ret := fun _ a w => (inr a, w);
  bind := fun _ _ c k w =>
            match c w with
            | (inr a, w') => k a w'
            | (inl e, w') => (inl e, w')
            end
}.

#[export] Instance Exception_IO {H : Http} : MonadExc FetchExc IO := {
  raise := fun _ e w => (inl e, w);
  catch := fun _ c h w =>
             match c w with
             | (inl e, w') => h e w'
             | r => r
             end
}.

(** A computation of the program that does not touch the network. *)
Definition lift_py {H : Http} {A} (c : Py A) : IO A :=
  fun w => (match c with inl e => inl (Raised e) | inr a => inr a end, w).

Section Fetch.
Context {R : Runtime} {H : Http}.

Definition BASE_URL : pystr := u "http://129.187.232.198:5000/api/3/action".

(** [requests.get(url)] *)
Definition requests_get (url : pystr) : IO Response :=
  fun w => match http_get url w with
           | (Some response, w') => (inr response, w')
           | (None, w') => (inl RequestException, w')
           end.

(** [response.raise_for_status()] *)
Definition raise_for_status (response : Response) : IO unit :=
  if status_ok response then ret tt else raise RequestException.

(** [response.json()] *)
Definition response_json (response : Response) : IO PyVal :=
  match json response with
  | Some data => ret data
  | None => raise RequestException
  end.

(** [fetch_package_list] (lines 17-32).  The calls of [logger] write to
    the log and give nothing back; the text they format is evaluated. *)
Definition fetch_package_list : IO PyVal :=
  let url := BASE_URL ++ u "/package_list" in
  catch
    (response <- requests_get url ;;
     raise_for_status response ;;
     data <- response_json response ;;
     success <- lift_py (py_get data (u "success")) ;;
     if truthy success
     then lift_py (py_getitem data (u "result"))
     else error <- lift_py (py_get data (u "error")) ;;
          ret (VList []))
    (fun e => ret (VList [])).

(** [fetch_package_details] (lines 34-49). *)
Definition fetch_package_details (package_id : PyVal) : IO PyVal :=
  let url := BASE_URL ++ u "/package_show?id=" ++ py_str package_id in
  catch
    (response <- requests_get url ;;
     raise_for_status response ;;
     data <- response_json response ;;
     success <- lift_py (py_get data (u "success")) ;;
     if truthy success
     then lift_py (py_getitem data (u "result"))
     else error <- lift_py (py_get data (u "error")) ;;
          ret (VDict []))
    (fun e => ret (VDict [])).

(** How [main] ends: with the warning that no packages were found, or by
    writing [all_schema_metadata] to the output file.  Creating the
    directory and writing the file are outside the model. *)
Inductive MainOutcome : Type :=
| NoPackages
| Saved (all_schema_metadata : list PyVal).

(** [map_to_schema_org(ckan_metadata)] on whatever was fetched: the first
    thing the mapper does is [ckan_data.get], a method of a [dict]. *)
Definition map_fetched (ckan_metadata : PyVal) : Py dict :=
  match ckan_metadata with
  | VDict ckan_data => map_to_schema_org ckan_data
  | _ => raise AttributeError
  end.

(** The loop of [main] over the package names (lines 182-186). *)
Fixpoint main_loop (package_names : list PyVal) (all_schema_metadata : list PyVal)
    : IO (list PyVal) :=
  match package_names with
  | [] => ret all_schema_metadata
  | name :: rest =>
      ckan_metadata <- fetch_package_details name ;;
      if truthy ckan_metadata
      then schema_data <- lift_py (map_fetched ckan_metadata) ;;
           main_loop rest (all_schema_metadata ++ [VDict schema_data])
      else main_loop rest all_schema_metadata
  end.

(** [main] (lines 170-198). *)
Definition main : IO MainOutcome :=
  package_names <- fetch_package_list ;;
  if negb (truthy package_names) then ret NoPackages
  else
    names <- lift_py (py_iter package_names) ;;
    all_schema_metadata <- main_loop names [] ;;
    ret (Saved all_schema_metadata).

End Fetch.

(** *** What the orchestrator is said to do, as definitions of its own *)

Section FetchDescribed.
Context {R : Runtime} {H : Http}.

Definition package_list_url : pystr :=
  u "http://129.187.232.198:5000/api/3/action/package_list".

Definition package_show_url (package_id : PyVal) : pystr :=
  u "http://129.187.232.198:5000/api/3/action/package_show?id=" ++ py_str package_id.

(** An envelope that reports success and carries [result]: the request
    went through, the status is good, and the body is a mapping with a
    truthy [success] and a [result] key. *)
Definition success_envelope (response : option Response) (result : PyVal) : Prop :=
  exists r d,
    response = Some r /\ status_ok r = true /\ json r = Some (VDict d)
    /\ truthy (dict_get d (u "success")) = true
    /\ dict_lookup d (u "result") = Some result.

(** The metadata fetched for a package and the world after the request. *)
Definition fetched (package_id : PyVal) (w : World) : PyVal * World :=
  (match fst (fetch_package_details package_id w) with
   | inr ckan_metadata => ckan_metadata
   | inl _ => VDict []
   end,
   snd (fetch_package_details package_id w)).

(** The metadata fetched for a list of packages, one request after the
    other, and the world after the last. *)
Fixpoint fetch_all (package_names : list PyVal) (w : World) : list PyVal * World :=
  match package_names with
  | [] => ([], w)
  | name :: rest =>
      let (ckan_metadata, w') := fetched name w in
      let (others, w'') := fetch_all rest w' in
      (ckan_metadata :: others, w'')
  end.

End FetchDescribed.

Arguments fetched : simpl never.

(** *** A catalog for the examples *)

Definition air_record : dict :=
  [ (u "title", VStr (u "Air quality"));
    (u "name", VStr (u "air"));
    (u "tags", VList [VDict [(u "display_name", VStr (u "air"))]]) ].

Definition water_record : dict :=
  [ (u "title", VStr (u "Water levels")); (u "name", VStr (u "water")) ].

Definition envelope (result : PyVal) : Response :=
  {| status_ok := true;
     json := Some (VDict [(u "success", VBool true); (u "result", result)]) |}.

(** A server with three packages listed: [air] and [water] are there,
    [gone] answers with an error status, and [odd] answers with a record
    that is a list. *)
Definition catalog : list (pystr * Response) :=
  [ (u "http://129.187.232.198:5000/api/3/action/package_list",
     envelope (VList [VStr (u "air"); VStr (u "gone"); VStr (u "water")]));
    (u "http://129.187.232.198:5000/api/3/action/package_show?id=air",
     envelope (VDict air_record));
    (u "http://129.187.232.198:5000/api/3/action/package_show?id=gone",
     {| status_ok := false; json := None |});
    (u "http://129.187.232.198:5000/api/3/action/package_show?id=water",
     envelope (VDict water_record));
    (u "http://129.187.232.198:5000/api/3/action/package_show?id=odd",
     envelope (VList [VInt 1])) ].

Fixpoint serve (table : list (pystr * Response)) (url : pystr) : option Response :=
  match table with
  | [] => None
  | (k, r) :: rest => if str_eqb k url then Some r else serve rest url
  end.

(** The network of the examples: [table] answers, and the world counts
    the requests made. *)
Definition serving (table : list (pystr * Response)) : Http :=
  {| World := nat; http_get := fun url n => (serve table url, S n) |}.

(** The same server when the package list names [odd] in the place of
    [gone]. *)
Definition odd_catalog : list (pystr * Response) :=
  (u "http://129.187.232.198:5000/api/3/action/package_list",
   envelope (VList [VStr (u "air"); VStr (u "odd"); VStr (u "water")]))
  :: catalog.

(** The Dataset of a record that has only a title, a name and tags. *)
Definition bare_dataset (title name : string) (keywords : list PyVal) : dict :=
  [ (u "@context", VStr (u "https://schema.org/"));
    (u "@type", VStr (u "Dataset"));
    (u "name", VStr (u title));
    (u "description", VStr []);
    (u "identifier", VNone);
    (u "url", VStr (u "http://129.187.232.198:5000/dataset/" ++ u name));
    (u "license", VNone);
    (u "datePublished", VNone);
    (u "dateModified", VNone);
    (u "inLanguage", VNone);
    (u "keywords", VList keywords);
    (u "creator", VList []);
    (u "maintainer", VList []);
    (u "distribution", VList []) ].

Definition air_dataset : dict := bare_dataset "Air quality" "air" [VStr (u "air")].
Definition water_dataset : dict := bare_dataset "Water levels" "water" [].

(** The record of the repository's test with a field the mapper does not
    read put in front. *)
Definition private_ckan : dict := (u "private", VBool true) :: mock_ckan.

(** The creator of [mock_dataset]. *)
Definition jane_smith : PyVal :=
  VDict [ (u "@type", VStr (u "Person"));
          (u "name", VStr (u "Jane Smith"));
          (u "givenName", VStr (u "Jane"));
          (u "familyName", VStr (u "Smith"));
          (u "email", VStr (u "jane@example.com")) ].

(** *** The fields of a record that the mapper reads *)

Definition mapper_fields : list pystr :=
  [ u "author"; u "maintainer"; u "tags"; u "resources"; u "title"; u "notes";
    u "id"; u "name"; u "license_url"; u "license_title"; u "metadata_created";
    u "metadata_modified"; u "language"; u "organization" ].

(** The keys of a Dataset without publisher, in the order they are
    written. *)
Definition dataset_keys : list pystr :=
  [ u "@context"; u "@type"; u "name"; u "description"; u "identifier"; u "url";
    u "license"; u "datePublished"; u "dateModified"; u "inLanguage";
    u "keywords"; u "creator"; u "maintainer"; u "distribution" ].

(** *** Shapes of what is written *)

(** A text that is its own tokens joined by single spaces. *)
Definition single_spaced (s : pystr) : Prop := s = join [c_space] (split s).

(** A value that is a mapping typed [Dataset]. *)
Definition is_dataset (v : PyVal) : Prop :=
  exists schema_data,
    v = VDict schema_data /\ dict_get schema_data (u "@type") = VStr (u "Dataset").

(** *** Texts made from a text by dropping and blanking *)

(** [thins t o]: the text [o] is made from [t] by dropping characters and
    by putting a space in the place of a character. *)
Inductive thins : pystr -> pystr -> Prop :=
| thins_nil : thins [] []
| thins_drop (c : char) (t o : pystr) : thins t o -> thins (c :: t) o
| thins_keep (c : char) (t o : pystr) : thins t o -> thins (c :: t) (c :: o)
| thins_blank (c : char) (t o : pystr) : thins t o -> thins (c :: t) (c_space :: o).

(* ===================================================================== *)
(** * Theorems *)
(* ===================================================================== *)

(* ===================================================================== *)
(** ** The repository's tests, run on the embedding *)
(* ===================================================================== *)

Example test_cleanup_text_html_tags :
  cleanup_text (VStr (uq "<div class='row'>Hello <br> world! <p>This is a test.</p></div>"))
  = u "Hello world! This is a test.".
Proof. vm_compute. reflexivity. Qed.

Example test_cleanup_text_newlines :
  cleanup_text (VStr (u "Line 1" ++ [c_cr; c_lf] ++ u "Line 2" ++ [c_lf] ++ u "Line 3"))
  = u "Line 1 Line 2 Line 3".
Proof. vm_compute. reflexivity. Qed.

Example test_cleanup_text_entities :
  cleanup_text (VStr (u "Me &amp; You &quot;Test&quot;")) = uq "Me & You 'Test'".
Proof. vm_compute. reflexivity. Qed.

Example test_cleanup_text_spaces :
  cleanup_text (VStr (u "  Too    many    spaces   ")) = u "Too many spaces".
Proof. vm_compute. reflexivity. Qed.

Example test_parse_person_name_simple :
  parse_person_name (VStr (u "John Doe"))
  = inr [ (u "name", VStr (u "John Doe"));
          (u "givenName", VStr (u "John"));
          (u "familyName", VStr (u "Doe")) ].
Proof. vm_compute. reflexivity. Qed.

Example test_parse_person_name_middle :
  parse_person_name (VStr (u "John Middle Doe"))
  = inr [ (u "name", VStr (u "John Middle Doe"));
          (u "givenName", VStr (u "John Middle"));
          (u "familyName", VStr (u "Doe")) ].
Proof. vm_compute. reflexivity. Qed.

Example test_parse_person_name_single :
  parse_person_name (VStr (u "John"))
  = inr [ (u "name", VStr (u "John")); (u "givenName", VStr (u "John")) ].
Proof. vm_compute. reflexivity. Qed.

Example test_parse_person_name_empty :
  parse_person_name (VStr []) = inr [] /\ parse_person_name VNone = inr [].
Proof. split; reflexivity. Qed.

Example test_try_parse_json_list_valid :
  try_parse_json_list (VStr (uq "[{'name': 'A'}, {'name': 'B'}]"))
  = inr (VList [ VDict [(u "name", VStr (u "A"))]; VDict [(u "name", VStr (u "B"))] ]).
Proof. vm_compute. reflexivity. Qed.

Example test_try_parse_json_list_dict :
  try_parse_json_list (VStr (uq "{'name': 'A'}"))
  = inr (VList [ VDict [(u "name", VStr (u "A"))] ]).
Proof. vm_compute. reflexivity. Qed.

Example test_try_parse_json_list_invalid :
  try_parse_json_list (VStr (u "not json")) = inr (VList [])
  /\ try_parse_json_list VNone = inr (VList []).
Proof. split; vm_compute; reflexivity. Qed.

Example test_map_to_schema_org :
  exists res,
    map_to_schema_org mock_ckan = inr res
    /\ dict_get res (u "@type") = VStr (u "Dataset")
    /\ dict_get res (u "name") = VStr (u "Test Dataset")
    /\ dict_get res (u "description") = VStr (u "Description with tags")
    /\ (exists person rest,
          dict_get res (u "creator") = VList (VDict person :: rest)
          /\ dict_get person (u "givenName") = VStr (u "Jane")
          /\ dict_get person (u "familyName") = VStr (u "Smith"))
    /\ (exists dist rest,
          dict_get res (u "distribution") = VList (VDict dist :: rest)
          /\ dict_get dist (u "contentUrl") = VStr (u "http://res.url")).
Proof.
  eexists. split; [ vm_compute; reflexivity | ].
  repeat split; try (vm_compute; reflexivity).
  - do 2 eexists. split; [ vm_compute; reflexivity | ]. split; vm_compute; reflexivity.
  - do 2 eexists. split; vm_compute; reflexivity.
Qed.

(* ===================================================================== *)
(** ** The flexible list decoder *)
(* ===================================================================== *)



(* ===================================================================== *)
(** ** Strings: white space, tokens and substitution *)
(* ===================================================================== *)

Section StringFacts.

Lemma takewhile_dropwhile (p : char -> bool) (t : pystr) :
  takewhile p t ++ dropwhile p t = t.
Proof.
  induction t as [ | c r IH ]; simpl; [ reflexivity | ].
  destruct (p c); simpl; [ now rewrite IH | reflexivity ].
Qed.

Lemma takewhile_all (p : char -> bool) (t : pystr) :
  forallb p (takewhile p t) = true.
Proof.
  induction t as [ | c r IH ]; simpl; [ reflexivity | ].
  destruct (p c) eqn:E; simpl; [ now rewrite E | reflexivity ].
Qed.

Lemma skipn_takewhile (p : char -> bool) (t : pystr) :
  skipn (length (takewhile p t)) t = dropwhile p t.
Proof.
  induction t as [ | c r IH ]; simpl; [ reflexivity | ].
  destruct (p c); simpl; [ exact IH | reflexivity ].
Qed.

Lemma dropwhile_length (p : char -> bool) (t : pystr) :
  length (dropwhile p t) <= length t.
Proof.
  induction t as [ | c r IH ]; simpl; [ lia | ].
  destruct (p c); simpl; lia.
Qed.

Lemma dropwhile_app (p : char -> bool) (a b : pystr) :
  dropwhile p (a ++ b)
  = match dropwhile p a with
    | [] => dropwhile p b
    | z => z ++ b
    end.
Proof.
  induction a as [ | c a IH ]; simpl.
  - destruct (dropwhile p b); reflexivity.
  - destruct (p c); [ exact IH | reflexivity ].
Qed.

Lemma starts_word_dropwhile (t : pystr) : starts_word (dropwhile isspace t) = true.
Proof.
  induction t as [ | c r IH ]; simpl; [ reflexivity | ].
  destruct (isspace c) eqn:E; [ exact IH | ].
  simpl. unfold nonspace. now rewrite E.
Qed.

Lemma dropwhile_starts_word (t : pystr) :
  starts_word t = true -> dropwhile isspace t = t.
Proof.
  destruct t as [ | c r ]; simpl; [ reflexivity | ].
  unfold nonspace. now destruct (isspace c).
Qed.

(** *** [rstrip] *)

Lemma rstrip_app (a b : pystr) :
  rstrip (a ++ b)
  = match rstrip b with
    | [] => rstrip a
    | z => a ++ z
    end.
Proof.
  unfold rstrip. rewrite rev_app_distr, dropwhile_app.
  destruct (dropwhile isspace (rev b)) as [ | x z ] eqn:E; [ reflexivity | ].
  rewrite rev_app_distr, rev_involutive.
  destruct (rev (x :: z)) eqn:E'; [ | reflexivity ].
  apply (f_equal (@rev char)) in E'. rewrite rev_involutive in E'. discriminate E'.
Qed.

Lemma rstrip_space : rstrip [c_space] = [].
Proof. reflexivity. Qed.

Lemma rstrip_word (w : pystr) : forallb nonspace w = true -> rstrip w = w.
Proof.
  induction w as [ | x w IH ] using rev_ind; [ reflexivity | ].
  rewrite forallb_app. intros H. apply andb_prop in H as [ _ Hx ].
  simpl in Hx. rewrite andb_true_r in Hx. unfold nonspace in Hx.
  unfold rstrip. rewrite rev_app_distr. simpl.
  destruct (isspace x); [ discriminate | ].
  simpl. now rewrite rev_involutive.
Qed.

Lemma rstrip_decompose (t : pystr) :
  exists g, forallb isspace g = true /\ t = rstrip t ++ g.
Proof.
  exists (rev (takewhile isspace (rev t))). split.
  - apply forallb_forall. intros c Hc. apply in_rev in Hc.
    exact (proj1 (forallb_forall _ _) (takewhile_all isspace (rev t)) c Hc).
  - unfold rstrip. rewrite <- rev_app_distr, takewhile_dropwhile.
    now rewrite rev_involutive.
Qed.

(** *** [split] *)

Lemma split_from_word (w cur t : pystr) :
  forallb nonspace w = true ->
  split_from cur (w ++ t) = split_from (cur ++ w) t.
Proof.
  revert cur. induction w as [ | c w IH ]; intros cur H; simpl.
  - now rewrite app_nil_r.
  - simpl in H. apply andb_prop in H as [ Hc Hw ].
    unfold nonspace in Hc. destruct (isspace c); [ discriminate | ].
    rewrite (IH _ Hw), <- app_assoc. reflexivity.
Qed.

Lemma split_from_space (g cur : pystr) :
  forallb isspace g = true ->
  split_from cur g = match cur with [] => [] | _ => [cur] end.
Proof.
  revert cur. induction g as [ | c g IH ]; intros cur H; simpl; [ reflexivity | ].
  simpl in H. apply andb_prop in H as [ Hc Hg ]. rewrite Hc.
  rewrite (IH [] Hg). now destruct cur.
Qed.

Lemma split_from_trailing_space (g t cur : pystr) :
  forallb isspace g = true ->
  split_from cur (t ++ g) = split_from cur t.
Proof.
  intros Hg. revert cur. induction t as [ | c t IH ]; intros cur; simpl.
  - apply split_from_space, Hg.
  - destruct (isspace c); [ | apply IH ].
    rewrite IH. reflexivity.
Qed.

Lemma split_dropwhile (t : pystr) : split (dropwhile isspace t) = split t.
Proof.
  unfold split. induction t as [ | c r IH ]; simpl; [ reflexivity | ].
  destruct (isspace c) eqn:E; [ exact IH | ].
  simpl. now rewrite E.
Qed.

(** Stripping a string does not change its tokens. *)
Lemma split_strip (t : pystr) : split (strip t) = split t.
Proof.
  unfold strip, lstrip.
  destruct (rstrip_decompose (dropwhile isspace t)) as (g & Hg & E).
  rewrite <- (split_dropwhile t). rewrite E at 2.
  unfold split. now rewrite split_from_trailing_space.
Qed.

Lemma split_from_words (t cur : pystr) :
  forallb nonspace cur = true -> Forall word (split_from cur t).
Proof.
  revert cur. induction t as [ | c r IH ]; intros cur Hcur; simpl.
  - destruct cur; constructor; [ split; [ discriminate | exact Hcur ] | constructor ].
  - destruct (isspace c) eqn:E.
    + destruct cur; [ apply IH; reflexivity | ].
      constructor; [ split; [ discriminate | exact Hcur ] | apply IH; reflexivity ].
    + apply IH. rewrite forallb_app, Hcur. simpl. unfold nonspace. now rewrite E.
Qed.

Lemma split_words (t : pystr) : Forall word (split t).
Proof. apply split_from_words. reflexivity. Qed.

Lemma join_cons2 (sep p q : pystr) (rest : list pystr) :
  join sep (p :: q :: rest) = p ++ sep ++ join sep (q :: rest).
Proof. reflexivity. Qed.

Lemma join_nonempty (sep w : pystr) (rest : list pystr) :
  w <> [] -> join sep (w :: rest) <> [].
Proof.
  intros Hw. destruct rest; simpl; [ exact Hw | ].
  destruct w; [ congruence | discriminate ].
Qed.

(** Splitting the tokens joined by single spaces gives the tokens back. *)
Lemma split_join (tokens : list pystr) :
  Forall word tokens -> split (join [c_space] tokens) = tokens.
Proof.
  unfold split. induction 1 as [ | w rest [ Hne Hw ] Hrest IH ]; [ reflexivity | ].
  destruct rest as [ | q rest ].
  - simpl. rewrite <- (app_nil_r w) at 1. rewrite (split_from_word w [] [] Hw).
    simpl. destruct w; [ congruence | reflexivity ].
  - rewrite join_cons2, (split_from_word w [] _ Hw).
    cbn [app split_from]. change (isspace c_space) with true. cbv iota.
    rewrite IH. destruct w; [ congruence | reflexivity ].
Qed.

Lemma join_chars (tokens : list pystr) (c : char) :
  Forall word tokens -> In c (join [c_space] tokens) ->
  c = c_space \/ isspace c = false.
Proof.
  induction 1 as [ | w rest [ Hne Hw ] Hrest IH ]; simpl; [ tauto | ].
  assert (Hin : In c w -> isspace c = false).
  { intros Hc. apply (proj1 (forallb_forall _ _) Hw) in Hc.
    unfold nonspace in Hc. now destruct (isspace c). }
  destruct rest as [ | q rest ]; [ auto | ].
  rewrite in_app_iff. simpl. intros [ Hc | [ Hc | Hc ] ]; auto.
Qed.

Lemma replace_char_absent (old new : char) (t : pystr) :
  ~ In old t -> replace_char old new t = t.
Proof.
  unfold replace_char. induction t as [ | c r IH ]; simpl; [ reflexivity | ].
  intros H. destruct (N.eqb_spec c old) as [ -> | _ ]; [ tauto | ].
  rewrite IH; tauto.
Qed.

(** *** [re.sub] *)

Lemma re_sub_skip (m : matcher) (k : nat) (t : pystr) :
  re_sub m k t = re_sub m 0 (skipn k t).
Proof.
  revert k. induction t as [ | c r IH ]; intros [ | k ]; simpl; auto.
Qed.

(** Where the pattern matches nowhere, substitution changes nothing. *)
Lemma re_sub_no_match (m : matcher) (t : pystr) :
  re_search m t = false -> re_sub m 0 t = t.
Proof.
  induction t as [ | c r IH ]; simpl; [ reflexivity | ].
  destruct (m (c :: r)); [ discriminate | ].
  intros H. now rewrite IH.
Qed.

Lemma collapse_word_char (c : char) (r : pystr) :
  isspace c = false -> re_sub ws_re 0 (c :: r) = c :: re_sub ws_re 0 r.
Proof. intros H. simpl. unfold ws_re. simpl. now rewrite H. Qed.

Lemma collapse_space_char (c : char) (r : pystr) :
  isspace c = true ->
  re_sub ws_re 0 (c :: r) = c_space :: re_sub ws_re 0 (dropwhile isspace r).
Proof.
  intros H. simpl. unfold ws_re. simpl. rewrite H. simpl.
  now rewrite re_sub_skip, skipn_takewhile.
Qed.

Lemma collapse_starts_word (t : pystr) :
  starts_word t = true -> starts_word (re_sub ws_re 0 t) = true.
Proof.
  destruct t as [ | c r ]; [ reflexivity | ].
  simpl starts_word at 1. unfold nonspace. intros H.
  rewrite collapse_word_char by now destruct (isspace c).
  simpl. unfold nonspace. exact H.
Qed.

Lemma lstrip_collapse (t : pystr) :
  lstrip (re_sub ws_re 0 t) = re_sub ws_re 0 (lstrip t).
Proof.
  unfold lstrip. destruct t as [ | c r ]; [ reflexivity | ].
  destruct (isspace c) eqn:E.
  - rewrite (collapse_space_char c r E). cbn [dropwhile].
    rewrite E. change (isspace c_space) with true. cbv iota.
    apply dropwhile_starts_word, collapse_starts_word, starts_word_dropwhile.
  - cbn [dropwhile]. rewrite E, (collapse_word_char c r E).
    cbn [dropwhile]. now rewrite E.
Qed.

(** Collapsing white space after the word [cur], then stripping on the
    right, joins the tokens by single spaces. *)
Lemma rstrip_collapse (n : nat) (t cur : pystr) :
  length t <= n ->
  forallb nonspace cur = true ->
  cur <> [] \/ starts_word t = true ->
  rstrip (cur ++ re_sub ws_re 0 t) = join [c_space] (split_from cur t).
Proof.
  revert t cur. induction n as [ | n IH ]; intros t cur Hn Hcur Hstart.
  - destruct t; [ | simpl in Hn; lia ].
    simpl. rewrite app_nil_r, (rstrip_word _ Hcur). now destruct cur.
  - destruct t as [ | c r ].
    + simpl. rewrite app_nil_r, (rstrip_word _ Hcur). now destruct cur.
    + simpl in Hn. cbn [split_from]. destruct (isspace c) eqn:E.
      * assert (Hne : cur <> []).
        { destruct Hstart as [ H | H ]; [ exact H | ].
          simpl in H. unfold nonspace in H. rewrite E in H. discriminate. }
        rewrite (collapse_space_char c r E).
        assert (Hr : rstrip (re_sub ws_re 0 (dropwhile isspace r))
                     = join [c_space] (split_from [] r)).
        { change (split_from [] r) with (split r).
          rewrite <- (split_dropwhile r).
          apply (IH (dropwhile isspace r) []).
          - pose proof (dropwhile_length isspace r). lia.
          - reflexivity.
          - right. apply starts_word_dropwhile. }
        change (cur ++ c_space :: re_sub ws_re 0 (dropwhile isspace r))
          with (cur ++ [c_space] ++ re_sub ws_re 0 (dropwhile isspace r)).
        rewrite rstrip_app, (rstrip_app [c_space]), Hr, rstrip_space.
        pose proof (split_from_words r [] eq_refl) as Hw.
        destruct cur as [ | k cur ]; [ congruence | ].
        destruct (split_from [] r) as [ | q rest ].
        -- cbn [join]. apply rstrip_word, Hcur.
        -- inversion Hw as [ | ? ? [ Hq _ ] _ ]; subst.
           pose proof (join_nonempty [c_space] q rest Hq) as Hj.
           rewrite join_cons2.
           destruct (join [c_space] (q :: rest)) as [ | x j ]; [ congruence | ].
           reflexivity.
      * rewrite (collapse_word_char c r E).
        change (cur ++ c :: ?x) with (cur ++ [c] ++ x). rewrite app_assoc.
        apply IH.
        -- lia.
        -- rewrite forallb_app, Hcur. simpl. unfold nonspace. now rewrite E.
        -- left. now destruct cur.
Qed.

(** Collapsing white space and stripping is joining the tokens by single
    spaces. *)
Lemma strip_collapse (t : pystr) :
  strip (re_sub ws_re 0 t) = join [c_space] (split t).
Proof.
  unfold strip. rewrite lstrip_collapse. unfold lstrip.
  rewrite <- (split_dropwhile t).
  apply (rstrip_collapse (length (dropwhile isspace t)) (dropwhile isspace t) []).
  - lia.
  - reflexivity.
  - right. apply starts_word_dropwhile.
Qed.

End StringFacts.

(* ===================================================================== *)
(** ** The name parser *)
(* ===================================================================== *)

(** C3, as amended.  For a name with two or more tokens the parser gives
    the tokens but the last, joined by single spaces, as [givenName], the
    last token as [familyName], and the name as it was passed, neither
    trimmed nor rejoined, as [name]. *)
Theorem parse_person_name_two_or_more (name : pystr) :
  2 <= length (split name) ->
  parse_person_name (VStr name)
  = inr [ (u "name", VStr name);
          (u "givenName", VStr (join (u " ") (removelast (split name))));
          (u "familyName", VStr (last (split name) [])) ].
Proof.
  intros H. unfold parse_person_name.
  destruct name as [ | c name ]; [ simpl in H; lia | ].
  cbn [truthy negb py_strip_split bind ret Monad_either].
  rewrite split_strip.
  destruct (length (split (c :: name))) as [ | [ | n ] ]; [ lia | lia | reflexivity ].
Qed.

Lemma parse_person_name_two_or_more_witness :
  2 <= length (split (u "John Middle Doe"))
  /\ parse_person_name (VStr (u "John Middle Doe"))
     = inr [ (u "name", VStr (u "John Middle Doe"));
             (u "givenName", VStr (u "John Middle"));
             (u "familyName", VStr (u "Doe")) ].
Proof.
  split; [ vm_compute; lia | ].
  rewrite (parse_person_name_two_or_more (u "John Middle Doe"))
    by (vm_compute; lia).
  vm_compute. reflexivity.
Defined.

(** C3 as stated fails: the name below has two tokens separated by two
    spaces; trimmed and rejoined it is [John Doe], and the [name] the
    parser gives keeps both spaces. *)
Lemma parse_person_name_keeps_raw_name :
  join (u " ") (split (strip (u "John  Doe"))) = u "John Doe"
  /\ parse_person_name (VStr (u "John  Doe"))
     = inr [ (u "name", VStr (u "John  Doe"));
             (u "givenName", VStr (u "John"));
             (u "familyName", VStr (u "Doe")) ].
Proof. split; vm_compute; reflexivity. Qed.

(* ===================================================================== *)
(** ** The text sanitizer: a second pass *)
(* ===================================================================== *)

Section Sanitizer.
Context {R : Runtime}.

(** The sanitizer ends by joining the tokens of its text by single
    spaces. *)
Lemma cleanup_text_tokens (x : pystr) :
  exists tokens, Forall word tokens /\ cleanup_text (VStr x) = join [c_space] tokens.
Proof.
  unfold cleanup_text. destruct x as [ | c x ].
  - exists []. split; [ constructor | reflexivity ].
  - cbn [truthy isinstance_str negb orb]. rewrite strip_collapse.
    eexists. split; [ apply split_words | reflexivity ].
Qed.

Lemma unescape_no_match (s : pystr) :
  re_search charref_re s = false -> unescape s = s.
Proof.
  intros H. unfold unescape.
  destruct (negb (existsb (N.eqb c_amp) s)); [ reflexivity | ].
  apply re_sub_no_match, H.
Qed.

(** C2, as amended.  A second pass of the sanitizer changes nothing when
    the output of the first holds no text that matches the tag pattern
    and no character reference. *)
Theorem cleanup_text_idempotent_without_markup (x : pystr) :
  re_search tag_re (cleanup_text (VStr x)) = false ->
  re_search charref_re (cleanup_text (VStr x)) = false ->
  cleanup_text (VStr (cleanup_text (VStr x))) = cleanup_text (VStr x).
Proof.
  destruct (cleanup_text_tokens x) as (tokens & Hw & ->).
  intros Htag Href.
  unfold cleanup_text.
  destruct (join [c_space] tokens) as [ | c y ] eqn:E; [ reflexivity | ].
  cbn [truthy isinstance_str negb orb]. rewrite <- E in *.
  rewrite (re_sub_no_match tag_re _ Htag), (unescape_no_match _ Href).
  assert (Hchar : forall k, isspace k = true -> k <> c_space ->
                            ~ In k (join [c_space] tokens)).
  { intros k Hk Hne Hin.
    destruct (join_chars tokens k Hw Hin) as [ -> | Hk' ]; congruence. }
  rewrite (replace_char_absent c_cr c_space), (replace_char_absent c_lf c_space)
    by (apply Hchar; [ reflexivity | discriminate ]).
  rewrite strip_collapse, (split_join tokens Hw). reflexivity.
Qed.

End Sanitizer.

Lemma cleanup_text_idempotent_without_markup_witness :
  cleanup_text (VStr (u "Me &amp; <b>You</b>")) = u "Me & You"
  /\ re_search tag_re (cleanup_text (VStr (u "Me &amp; <b>You</b>"))) = false
  /\ re_search charref_re (cleanup_text (VStr (u "Me &amp; <b>You</b>"))) = false
  /\ cleanup_text (VStr (cleanup_text (VStr (u "Me &amp; <b>You</b>"))))
     = cleanup_text (VStr (u "Me &amp; <b>You</b>")).
Proof.
  repeat (split; [ vm_compute; reflexivity | ]).
  apply (@cleanup_text_idempotent_without_markup reference);
    vm_compute; reflexivity.
Defined.

(** C2 as stated fails: the first pass decodes [&amp;amp;] to [&amp;],
    and a second pass decodes that to [&]. *)
Lemma cleanup_text_second_pass_decodes_again :
  cleanup_text (VStr (u "&amp;amp;")) = u "&amp;"
  /\ cleanup_text (VStr (cleanup_text (VStr (u "&amp;amp;")))) = u "&".
Proof. split; vm_compute; reflexivity. Qed.

(* ===================================================================== *)
(** ** The text sanitizer: decoding after stripping *)
(* ===================================================================== *)

(** C10.  Some input makes the output of [cleanup_text] contain text that
    matches the tag pattern: the numeric references of [<p>] on every
    runtime, and the escaped text [&lt;p&gt;] on every runtime whose
    entity table decodes [lt;] and [gt;].  The input holds no tag when
    tags are stripped; the tag appears when the entities are decoded, one
    step later. *)
Theorem cleanup_text_output_may_hold_tag (R : Runtime) :
  (exists x, re_search tag_re x = false
             /\ re_search tag_re (cleanup_text (VStr x)) = true)
  /\ (html5 (u "lt;") = Some (u "<") -> html5 (u "gt;") = Some (u ">") ->
      re_search tag_re (u "&lt;p&gt;") = false
      /\ cleanup_text (VStr (u "&lt;p&gt;")) = u "<p>"
      /\ re_search tag_re (u "<p>") = true).
Proof.
  split.
  - exists (u "&#60;p&#62;"). split; vm_compute; reflexivity.
  - intros Hlt Hgt. repeat split; try (vm_compute; reflexivity).
    vm_compute in Hlt, Hgt. vm_compute.
    rewrite Hlt. vm_compute. rewrite Hgt. vm_compute. reflexivity.
Qed.

Lemma cleanup_text_output_may_hold_tag_witness :
  cleanup_text (VStr (u "&lt;p&gt;")) = u "<p>"
  /\ re_search tag_re (u "<p>") = true.
Proof.
  apply (proj2 (cleanup_text_output_may_hold_tag reference));
    vm_compute; reflexivity.
Defined.

(* ===================================================================== *)
(** ** The record mapper *)
(* ===================================================================== *)

Section MapperFacts.
Context {R : Runtime}.

Lemma bind_inr {A B} (c : Py A) (k : A -> Py B) (b : B) :
  bind c k = inr b -> exists a, c = inr a /\ k a = inr b.
Proof. destruct c as [ e | a ]; simpl; [ discriminate | eauto ]. Qed.

Lemma try_parse_json_list_returns (value : PyVal) :
  exists entries, try_parse_json_list value = inr (VList entries).
Proof.
  unfold try_parse_json_list, try_except.
  destruct value as [ | b | z | f | s | l | d ]; simpl;
    rewrite ?orb_true_r; eauto.
  destruct s as [ | c s ]; simpl; eauto.
  destruct (json_loads (c :: s)) as [ parsed | ]; simpl; eauto.
  destruct parsed; simpl; eauto.
Qed.



(** What one turn of the loop over the entries appends. *)
Lemma person_loop_step (nk ek : pystr) (e : dict) (rest people : list PyVal)
    (fields : dict) :
  parse_person_name (dict_get e nk) = inr fields ->
  person_loop nk ek (VDict e :: rest) people
  = person_loop nk ek rest
      (people ++ map VDict (filter has_name [person_of nk ek (VDict e)])).
Proof.
  intros Hp. simpl person_loop. rewrite Hp. simpl bind.
  unfold person_of, name_fields. rewrite Hp.
  destruct (truthy (dict_get e ek)); simpl bind; unfold has_name; simpl filter;
    match goal with
    | |- context [ truthy (dict_get ?p (u "name")) ] =>
        destruct (truthy (dict_get p (u "name")))
    end; simpl; rewrite ?app_nil_r; reflexivity.
Qed.

Lemma people_of_cons (nk ek : pystr) (entry : PyVal) (rest : list PyVal) :
  people_of nk ek (entry :: rest)
  = map VDict (filter has_name [person_of nk ek entry]) ++ people_of nk ek rest.
Proof.
  unfold people_of. cbn [map filter].
  generalize (person_of nk ek entry). intros person.
  destruct (has_name person); reflexivity.
Qed.

Lemma parse_person_name_inv (name : PyVal) (fields : dict) :
  parse_person_name name = inr fields ->
  negb (truthy name) || isinstance_str name = true.
Proof.
  unfold parse_person_name. destruct (truthy name); simpl; [ | reflexivity ].
  destruct name; simpl; solve [ discriminate | reflexivity ].
Qed.

Lemma person_loop_inv (nk ek : pystr) (entries people res : list PyVal) :
  person_loop nk ek entries people = inr res ->
  forallb (entry_ok nk) entries = true
  /\ res = people ++ people_of nk ek entries.
Proof.
  revert people. induction entries as [ | auth rest IH ]; intros people H.
  - simpl in H. injection H as <-. unfold people_of. simpl.
    now rewrite app_nil_r.
  - destruct auth as [ | | | | | | e ]; try discriminate H.
    destruct (parse_person_name (dict_get e nk)) as [ err | fields ] eqn:Hp.
    + simpl in H. rewrite Hp in H. discriminate H.
    + rewrite (@person_loop_step nk ek e rest people fields Hp) in H.
      apply IH in H as [ Hok H ]. split.
      * cbn [forallb entry_ok]. now rewrite (parse_person_name_inv _ _ Hp), Hok.
      * now rewrite H, <- app_assoc, people_of_cons.
Qed.


Lemma keywords_loop_inv (tags keywords : list PyVal) :
  keywords_loop tags = inr keywords ->
  keywords = map display_name (filter has_display_name tags).
Proof.
  revert keywords. induction tags as [ | tag rest IH ]; intros keywords H.
  - simpl in H. now injection H as <-.
  - simpl in H.
    destruct tag as [ | b | z | f | s | l | d ]; simpl in H; try discriminate H.
    + destruct (substring (u "display_name") s); [ discriminate H | ].
      simpl. auto.
    + destruct (existsb _ l); [ discriminate H | ]. simpl. auto.
    + cbn [filter has_display_name]. unfold dict_has in *.
      destruct (dict_lookup d (u "display_name")) as [ x | ] eqn:Hd; simpl in H.
      * destruct (keywords_loop rest) as [ e | vs ]; [ discriminate H | ].
        injection H as <-. cbn [map display_name].
        unfold dict_get, dict_get_default. rewrite Hd. f_equal. auto.
      * auto.
Qed.


Lemma distributions_loop_step (d : dict) (rest distributions : list PyVal) :
  distributions_loop (VDict d :: rest) distributions
  = distributions_loop rest (distributions ++ [download_of (VDict d)]).
Proof. reflexivity. Qed.

Lemma distributions_loop_inv (resources distributions res : list PyVal) :
  distributions_loop resources distributions = inr res ->
  forallb isinstance_dict resources = true
  /\ res = distributions ++ map download_of resources.
Proof.
  revert distributions.
  induction resources as [ | r rest IH ]; intros distributions H.
  - simpl in H. injection H as <-. simpl. now rewrite app_nil_r.
  - destruct r as [ | | | | | | d ]; try discriminate H.
    rewrite distributions_loop_step in H. apply IH in H as [ Hok H ].
    split; [ exact Hok | ]. rewrite H, <- app_assoc. reflexivity.
Qed.


(** The fields of the returned Dataset, in the order the program writes
    them, given the four lists the loops built. *)
Lemma map_to_schema_org_inv (ckan_data out : dict) :
  map_to_schema_org ckan_data = inr out ->
  exists authors maints tags resources,
    try_parse_json_list (dict_get ckan_data (u "author")) = inr (VList authors)
    /\ try_parse_json_list (dict_get ckan_data (u "maintainer")) = inr (VList maints)
    /\ py_iter (dict_get_default ckan_data (u "tags") (VList [])) = inr tags
    /\ py_iter (dict_get_default ckan_data (u "resources") (VList [])) = inr resources
    /\ forallb (entry_ok (u "author_name")) authors = true
    /\ forallb (entry_ok (u "maintainer_name")) maints = true
    /\ forallb isinstance_dict resources = true
    /\ (truthy (dict_get ckan_data (u "organization")) = true ->
        isinstance_dict (dict_get ckan_data (u "organization")) = true)
    /\ out =
       [ (u "@context", VStr (u "https://schema.org/"));
         (u "@type", VStr (u "Dataset"));
         (u "name", dict_get ckan_data (u "title"));
         (u "description", VStr (cleanup_text (dict_get ckan_data (u "notes"))));
         (u "identifier", dict_get ckan_data (u "id"));
         (u "url", VStr (dataset_base_url ++ py_str (dict_get ckan_data (u "name"))));
         (u "license",
          if truthy (dict_get ckan_data (u "license_url"))
          then dict_get ckan_data (u "license_url")
          else dict_get ckan_data (u "license_title"));
         (u "datePublished", dict_get ckan_data (u "metadata_created"));
         (u "dateModified", dict_get ckan_data (u "metadata_modified"));
         (u "inLanguage", dict_get ckan_data (u "language"));
         (u "keywords", VList (map display_name (filter has_display_name tags)));
         (u "creator", VList (people_of (u "author_name") (u "author_email") authors));
         (u "maintainer",
          VList (people_of (u "maintainer_name") (u "maintainer_email") maints));
         (u "distribution", VList (map download_of resources)) ]
       ++ (if truthy (dict_get ckan_data (u "organization"))
           then [(u "publisher", organization_of (dict_get ckan_data (u "organization")))]
           else []).
Proof.
  unfold map_to_schema_org. intros H.
  destruct (try_parse_json_list_returns (dict_get ckan_data (u "author")))
    as [ authors Ha ].
  destruct (try_parse_json_list_returns (dict_get ckan_data (u "maintainer")))
    as [ maints Hm ].
  rewrite Ha, Hm in H. simpl in H.
  apply bind_inr in H as (creators & Hc & H).
  apply person_loop_inv in Hc as [ Hoka Hc ].
  apply bind_inr in H as (maintainers & Hms & H).
  apply person_loop_inv in Hms as [ Hokm Hms ].
  apply bind_inr in H as (tags & Ht & H).
  apply bind_inr in H as (keywords & Hk & H). apply keywords_loop_inv in Hk.
  apply bind_inr in H as (resources & Hr & H).
  apply bind_inr in H as (distributions & Hd & H).
  apply distributions_loop_inv in Hd as [ Hokr Hd ].
  simpl in Hc, Hms, Hd. subst creators maintainers keywords distributions.
  exists authors, maints, tags, resources.
  repeat (split; [ assumption || reflexivity | ]).
  destruct (truthy (dict_get ckan_data (u "organization"))) eqn:Horg.
  - destruct (dict_get ckan_data (u "organization")) as [ | | | | | | org ];
      try discriminate H.
    simpl in H. injection H as <-. split; reflexivity.
  - injection H as <-. split; [ discriminate | ]. now rewrite app_nil_r.
Qed.

End MapperFacts.

Section DictFacts.

Lemma str_eqb_refl (k : pystr) : str_eqb k k = true.
Proof. induction k as [ | c k IH ]; simpl; [ | rewrite N.eqb_refl ]; auto. Qed.

Lemma dict_lookup_set_same (d : dict) (k : pystr) (v : PyVal) :
  dict_lookup (dict_set d k v) k = Some v.
Proof.
  induction d as [ | [ k' v' ] d IH ]; simpl.
  - now rewrite str_eqb_refl.
  - destruct (str_eqb k' k) eqn:E; simpl; rewrite E; auto.
Qed.

End DictFacts.

Section Claims.
Context {R : Runtime}.

(** From a run of the mapper that returned, the decoded entries, the tags
    and the resources it read, what is known of them, and the Dataset
    written out field by field. *)
Ltac dataset_fields H :=
  destruct (@map_to_schema_org_inv _ _ _ H)
    as (authors & maints & tags & resources
        & Hauthors & Hmaints & Htags & Hresources
        & Hauthors_ok & Hmaints_ok & Hresources_ok & Horg & ->).

(** The fields the name parser can give: none, [name] and [givenName], or
    these two and [familyName]. *)
Lemma name_fields_shape (name : PyVal) :
  name_fields name = []
  \/ (exists g, name_fields name = [(u "name", name); (u "givenName", g)])
  \/ (exists g f, name_fields name
                  = [(u "name", name); (u "givenName", g); (u "familyName", f)]).
Proof.
  unfold name_fields, parse_person_name.
  destruct (truthy name); simpl; auto.
  destruct name; simpl; auto.
  destruct (length (split (strip s))) as [ | [ | n ] ]; eauto.
Qed.

(** The email of a described Person: the entry's email when that value is
    truthy, and no [email] key otherwise. *)
Lemma person_of_email (nk ek : pystr) (e : dict) :
  dict_lookup (person_of nk ek (VDict e)) (u "email")
  = if truthy (dict_get e ek) then Some (dict_get e ek) else None.
Proof.
  unfold person_of. destruct (truthy (dict_get e ek)).
  - apply dict_lookup_set_same.
  - destruct (name_fields_shape (dict_get e nk)) as [ -> | [ (g & ->) | (g & f & ->) ] ];
      reflexivity.
Qed.



(** C4, as amended.  The creator list holds, in order, one Person per
    entry decoded from the author field, built from the entry's
    [author_name] by the name parser, those without a non-empty name left
    out; the Person carries the entry's [author_email] as [email] exactly
    when that value is truthy.  The maintainer list is built the same way
    from [maintainer_name] and [maintainer_email]. *)
Theorem creators_and_maintainers (ckan_data out : dict) :
  map_to_schema_org ckan_data = inr out ->
  exists authors maints,
    try_parse_json_list (dict_get ckan_data (u "author")) = inr (VList authors)
    /\ try_parse_json_list (dict_get ckan_data (u "maintainer")) = inr (VList maints)
    /\ forallb isinstance_dict authors = true
    /\ forallb isinstance_dict maints = true
    /\ dict_get out (u "creator")
       = VList (people_of (u "author_name") (u "author_email") authors)
    /\ dict_get out (u "maintainer")
       = VList (people_of (u "maintainer_name") (u "maintainer_email") maints)
    /\ (forall nk ek e,
          dict_lookup (person_of nk ek (VDict e)) (u "email")
          = if truthy (dict_get e ek) then Some (dict_get e ek) else None)
    /\ (forall nk ek e,
          dict_get (person_of nk ek (VDict e)) (u "@type") = VStr (u "Person")).
Proof.
  intros H. dataset_fields H.
  exists authors, maints.
  assert (Hdict : forall nk l, forallb (entry_ok nk) l = true ->
                               forallb isinstance_dict l = true).
  { intros nk l. induction l as [ | x l IH ]; simpl; auto.
    intros Hx. apply andb_prop in Hx as [ Hx Hl ].
    destruct x; try discriminate Hx. simpl. auto. }
  split; [ exact Hauthors | ]. split; [ exact Hmaints | ].
  split; [ exact (Hdict _ _ Hauthors_ok) | ].
  split; [ exact (Hdict _ _ Hmaints_ok) | ].
  split; [ reflexivity | ]. split; [ reflexivity | ].
  split; [ intros; apply person_of_email | ].
  intros nk ek e. unfold person_of.
  destruct (name_fields_shape (dict_get e nk)) as [ -> | [ (g & ->) | (g & f & ->) ] ];
    destruct (truthy (dict_get e ek)); reflexivity.
Qed.




(** C9, as amended.  The top-level fields of the returned Dataset: name
    is the title, description the sanitized notes, identifier the id, url
    the fixed base path followed by the record's name, license the
    [license_url] when that value is truthy and the [license_title]
    otherwise, and the two dates and the language are copied. *)
Theorem top_level_fields (ckan_data out : dict) :
  map_to_schema_org ckan_data = inr out ->
  dict_get out (u "name") = dict_get ckan_data (u "title")
  /\ dict_get out (u "description")
     = VStr (cleanup_text (dict_get ckan_data (u "notes")))
  /\ dict_get out (u "identifier") = dict_get ckan_data (u "id")
  /\ dict_get out (u "url")
     = VStr (u "http://129.187.232.198:5000/dataset/"
             ++ py_str (dict_get ckan_data (u "name")))
  /\ (forall s, dict_get ckan_data (u "name") = VStr s ->
      dict_get out (u "url") = VStr (u "http://129.187.232.198:5000/dataset/" ++ s))
  /\ (dict_lookup ckan_data (u "name") = None ->
      dict_get out (u "url") = VStr (u "http://129.187.232.198:5000/dataset/None"))
  /\ dict_get out (u "license")
     = (if truthy (dict_get ckan_data (u "license_url"))
        then dict_get ckan_data (u "license_url")
        else dict_get ckan_data (u "license_title"))
  /\ dict_get out (u "datePublished") = dict_get ckan_data (u "metadata_created")
  /\ dict_get out (u "dateModified") = dict_get ckan_data (u "metadata_modified")
  /\ dict_get out (u "inLanguage") = dict_get ckan_data (u "language").
Proof.
  intros H. dataset_fields H.
  repeat (split; [ reflexivity | ]).
  split; [ | split; [ | repeat (split; [ reflexivity | ]); reflexivity ] ].
  - intros s Hs.
    change (VStr (dataset_base_url ++ py_str (dict_get ckan_data (u "name")))
            = VStr (u "http://129.187.232.198:5000/dataset/" ++ s)).
    rewrite Hs. reflexivity.
  - intros Hs.
    change (VStr (dataset_base_url ++ py_str (dict_get ckan_data (u "name")))
            = VStr (u "http://129.187.232.198:5000/dataset/None")).
    unfold dict_get, dict_get_default. rewrite Hs. reflexivity.
Qed.

End Claims.

(** *** The mapper on concrete records *)



Lemma creators_and_maintainers_witness :
  map_to_schema_org mock_ckan = inr mock_dataset
  /\ dict_get mock_dataset (u "creator")
     = VList [ VDict [ (u "@type", VStr (u "Person"));
                       (u "name", VStr (u "Jane Smith"));
                       (u "givenName", VStr (u "Jane"));
                       (u "familyName", VStr (u "Smith"));
                       (u "email", VStr (u "jane@example.com")) ] ]
  /\ dict_get mock_dataset (u "maintainer") = VList [].
Proof.
  assert (H : map_to_schema_org mock_ckan = inr mock_dataset)
    by (vm_compute; reflexivity).
  split; [ exact H | ].
  destruct (@creators_and_maintainers reference mock_ckan mock_dataset H)
    as (authors & maints & Ha & Hm & _ & _ & -> & -> & _).
  vm_compute in Ha, Hm. injection Ha as <-. injection Hm as <-.
  split; vm_compute; reflexivity.
Defined.

(** C4 as stated fails: the entry below has an [author_email] field, and
    the Person built from it has no [email]. *)
Lemma empty_author_email_is_not_attached :
  try_parse_json_list
    (VStr (uq "[{'author_name': 'Jane Smith', 'author_email': ''}]"))
  = inr (VList [ VDict [ (u "author_name", VStr (u "Jane Smith"));
                         (u "author_email", VStr []) ] ])
  /\ (out <- map_to_schema_org
               [ (u "author",
                  VStr (uq "[{'author_name': 'Jane Smith', 'author_email': ''}]")) ] ;;
      ret (dict_get out (u "creator")))
     = inr (VList [ VDict [ (u "@type", VStr (u "Person"));
                            (u "name", VStr (u "Jane Smith"));
                            (u "givenName", VStr (u "Jane"));
                            (u "familyName", VStr (u "Smith")) ] ]).
Proof. split; vm_compute; reflexivity. Qed.




Lemma top_level_fields_witness :
  map_to_schema_org licensed_ckan = inr licensed_dataset
  /\ dict_get licensed_dataset (u "url")
     = VStr (u "http://129.187.232.198:5000/dataset/air-quality")
  /\ dict_get licensed_dataset (u "license")
     = VStr (u "https://opensource.org/licenses/MIT").
Proof.
  assert (H : map_to_schema_org licensed_ckan = inr licensed_dataset)
    by (vm_compute; reflexivity).
  split; [ exact H | ].
  destruct (@top_level_fields reference _ _ H)
    as (_ & _ & _ & -> & _ & _ & -> & _).
  split; vm_compute; reflexivity.
Defined.

(** C9 as stated fails: the record below has a [license_url] field, and
    the license of the Dataset is its [license_title]. *)
Lemma empty_license_url_gives_license_title :
  dict_lookup [ (u "license_url", VStr []); (u "license_title", VStr (u "MIT")) ]
    (u "license_url") = Some (VStr [])
  /\ (out <- map_to_schema_org
               [ (u "license_url", VStr []); (u "license_title", VStr (u "MIT")) ] ;;
      ret (dict_get out (u "license")))
     = inr (VStr (u "MIT")).
Proof. split; vm_compute; reflexivity. Qed.

(* ===================================================================== *)
(** ** The name parser: few tokens, other values, and the two parts *)
(* ===================================================================== *)

Lemma parse_person_name_str (name : pystr) :
  parse_person_name (VStr name)
  = inr match length (split name) with
        | 0 => []
        | 1 => [ (u "name", VStr name); (u "givenName", VStr name) ]
        | _ => [ (u "name", VStr name);
                 (u "givenName", VStr (join (u " ") (removelast (split name))));
                 (u "familyName", VStr (last (split name) [])) ]
        end.
Proof.
  unfold parse_person_name. destruct name as [ | c name ]; [ reflexivity | ].
  cbn [truthy negb py_strip_split bind ret Monad_either]. rewrite split_strip.
  destruct (length (split (c :: name))) as [ | [ | n ] ]; reflexivity.
Qed.

(** X1.  A name without a token (empty, or white space only) gives the
    empty mapping; a name with exactly one token gives [name] and
    [givenName], both the string as it was passed (white space around the
    token included), and no [familyName]. *)
Theorem parse_person_name_few_tokens (name : pystr) :
  (split name = [] -> parse_person_name (VStr name) = inr [])
  /\ (forall token, split name = [token] ->
      parse_person_name (VStr name)
      = inr [ (u "name", VStr name); (u "givenName", VStr name) ]).
Proof.
  rewrite parse_person_name_str. split.
  - intros ->. reflexivity.
  - intros token ->. reflexivity.
Qed.

Lemma parse_person_name_few_tokens_witness :
  parse_person_name (VStr (u "   ")) = inr []
  /\ parse_person_name (VStr (u " Cher ")) 
     = inr [ (u "name", VStr (u " Cher ")); (u "givenName", VStr (u " Cher ")) ].
Proof.
  split.
  - apply (proj1 (parse_person_name_few_tokens (u "   "))). vm_compute. reflexivity.
  - apply (proj2 (parse_person_name_few_tokens (u " Cher ")) (u "Cher")).
    vm_compute. reflexivity.
Defined.

(** X2.  On a value that is not a string the parser gives the empty
    mapping when the value is falsy ([None], [False], zero, an empty list
    or mapping) and raises [AttributeError] when it is truthy. *)
Theorem parse_person_name_not_a_string (name : PyVal) :
  isinstance_str name = false ->
  parse_person_name name = if truthy name then inl AttributeError else inr [].
Proof.
  unfold parse_person_name.
  destruct name; try discriminate; intros _; simpl;
    match goal with
    | |- context [ if ?b then _ else _ ] => destruct b; reflexivity
    | _ => reflexivity
    end.
Qed.

Lemma parse_person_name_not_a_string_witness :
  parse_person_name (VInt 5) = inl AttributeError
  /\ parse_person_name (VList []) = inr [].
Proof.
  split.
  - exact (parse_person_name_not_a_string (VInt 5) eq_refl).
  - exact (parse_person_name_not_a_string (VList []) eq_refl).
Defined.

Lemma join_snoc (sep : pystr) (parts : list pystr) (p : pystr) :
  parts <> [] -> join sep (parts ++ [p]) = join sep parts ++ sep ++ p.
Proof.
  induction parts as [ | q parts IH ]; [ congruence | intros _ ].
  destruct parts as [ | q' parts ]; [ reflexivity | ].
  change ((q :: q' :: parts) ++ [p]) with (q :: (q' :: parts) ++ [p]).
  cbn [app]. rewrite !join_cons2. cbn [app] in IH. rewrite IH by discriminate.
  now rewrite <- !app_assoc.
Qed.

Lemma removelast_words (tokens : list pystr) :
  Forall word tokens -> Forall word (removelast tokens).
Proof.
  induction 1 as [ | w rest Hw Hrest IH ]; [ constructor | ].
  destruct rest; [ constructor | ]. cbn [removelast].
  constructor; [ exact Hw | exact IH ].
Qed.

Lemma last_word (tokens : list pystr) :
  tokens <> [] -> Forall word tokens -> word (last tokens []).
Proof.
  induction 2 as [ | w rest Hw Hrest IH ]; [ congruence | ].
  destruct rest; [ exact Hw | ]. cbn [last]. apply IH. discriminate.
Qed.

Lemma lstrip_join (tokens : list pystr) :
  Forall word tokens -> lstrip (join [c_space] tokens) = join [c_space] tokens.
Proof.
  intros Hw. apply dropwhile_starts_word.
  destruct Hw as [ | w rest [ Hne Hw ] Hrest ]; [ reflexivity | ].
  destruct w as [ | c w ]; [ congruence | ].
  simpl in Hw. apply andb_prop in Hw as [ Hc _ ].
  destruct rest; exact Hc.
Qed.

Lemma rstrip_join (tokens : list pystr) :
  Forall word tokens -> rstrip (join [c_space] tokens) = join [c_space] tokens.
Proof.
  induction 1 as [ | w rest [ Hne Hw ] Hrest IH ]; [ reflexivity | ].
  destruct rest as [ | q rest ]; [ exact (rstrip_word w Hw) | ].
  rewrite join_cons2, app_assoc, rstrip_app, IH.
  inversion Hrest as [ | ? ? [ Hq _ ] _ ]; subst.
  pose proof (join_nonempty [c_space] q rest Hq) as Hj.
  destruct (join [c_space] (q :: rest)); [ congruence | reflexivity ].
Qed.

(** X3.  For a name with two tokens or more, [givenName], a space and
    [familyName] together are the tokens of the name joined by single
    spaces; [familyName] is one token, free of white space, and
    [givenName] has no white space at either end. *)
Theorem parse_person_name_parts_rejoin (name : pystr) :
  2 <= length (split name) ->
  exists given family,
    parse_person_name (VStr name)
    = inr [ (u "name", VStr name);
            (u "givenName", VStr given);
            (u "familyName", VStr family) ]
    /\ given ++ u " " ++ family = join (u " ") (split name)
    /\ family <> [] /\ forallb nonspace family = true
    /\ given <> [] /\ strip given = given.
Proof.
  intros H. rewrite parse_person_name_str.
  pose proof (split_words name) as Hw.
  destruct (split name) as [ | t1 [ | t2 rest ] ] eqn:E; try (simpl in H; lia).
  change (length (t1 :: t2 :: rest)) with (S (S (length rest))). cbv iota.
  do 2 eexists. split; [ reflexivity | ].
  assert (Hne : t1 :: t2 :: rest <> []) by discriminate.
  destruct (last_word _ Hne Hw) as [ Hfne Hfw ].
  pose proof (removelast_words _ Hw) as Hg.
  split; [ | split; [ exact Hfne | split; [ exact Hfw | split ] ] ].
  - rewrite (app_removelast_last [] Hne) at 3.
    rewrite join_snoc; [ reflexivity | ]. discriminate.
  - cbn [removelast] in *. inversion Hg as [ | ? ? [ Ht1 _ ] _ ]; subst.
    apply join_nonempty, Ht1.
  - unfold strip. change (u " ") with [c_space]. now rewrite lstrip_join, rstrip_join.
Qed.

Lemma parse_person_name_parts_rejoin_witness :
  2 <= length (split (u "  Ada   King Lovelace "))
  /\ exists given family,
       parse_person_name (VStr (u "  Ada   King Lovelace "))
       = inr [ (u "name", VStr (u "  Ada   King Lovelace "));
               (u "givenName", VStr given);
               (u "familyName", VStr family) ]
       /\ given ++ u " " ++ family = join (u " ") (split (u "  Ada   King Lovelace "))
       /\ family <> [] /\ forallb nonspace family = true
       /\ given <> [] /\ strip given = given.
Proof.
  split; [ vm_compute; lia | ].
  apply (parse_person_name_parts_rejoin (u "  Ada   King Lovelace ")).
  vm_compute. lia.
Defined.

(* ===================================================================== *)
(** ** The text sanitizer: the shape of its output *)
(* ===================================================================== *)

Section SanitizerShape.
Context {R : Runtime}.

Lemma cleanup_text_shape (text : PyVal) :
  exists tokens, Forall word tokens /\ cleanup_text text = join [c_space] tokens.
Proof.
  destruct text as [ | | | | x | | ];
    try (exists []; split; [ constructor | ]; unfold cleanup_text; simpl;
         rewrite ?orb_true_r; reflexivity).
  apply cleanup_text_tokens.
Qed.

Lemma cleanup_text_single_spaced (text : PyVal) : single_spaced (cleanup_text text).
Proof.
  destruct (cleanup_text_shape text) as (tokens & Hw & ->).
  unfold single_spaced. now rewrite (split_join tokens Hw).
Qed.

(** X4.  Whatever is passed, the output of [cleanup_text] is its own
    tokens joined by single spaces: it has no white space at either end,
    no two spaces in a row, and no white-space character other than the
    space, so no carriage return and no line feed, also when an entity
    decodes to one. *)
Theorem cleanup_text_normal_form (text : PyVal) :
  cleanup_text text = join [c_space] (split (cleanup_text text))
  /\ strip (cleanup_text text) = cleanup_text text
  /\ ~ In c_cr (cleanup_text text)
  /\ ~ In c_lf (cleanup_text text)
  /\ (forall c, In c (cleanup_text text) -> isspace c = true -> c = c_space).
Proof.
  destruct (cleanup_text_shape text) as (tokens & Hw & ->).
  assert (Hchars : forall c, In c (join [c_space] tokens) ->
                             isspace c = true -> c = c_space).
  { intros c Hin Hc. destruct (join_chars tokens c Hw Hin); congruence. }
  split; [ now rewrite (split_join tokens Hw) | ].
  split; [ unfold strip; now rewrite lstrip_join, rstrip_join | ].
  split; [ intros Hin; specialize (Hchars _ Hin eq_refl); discriminate | ].
  split; [ intros Hin; specialize (Hchars _ Hin eq_refl); discriminate | exact Hchars ].
Qed.

Lemma split_from_replace_space (old new : char) (t cur : pystr) :
  isspace old = true -> isspace new = true ->
  split_from cur (replace_char old new t) = split_from cur t.
Proof.
  intros Ho Hn. revert cur. unfold replace_char.
  induction t as [ | c t IH ]; intros cur; [ reflexivity | ].
  cbn [map split_from]. destruct (N.eqb_spec c old) as [ -> | _ ].
  - rewrite Ho, Hn, IH. reflexivity.
  - destruct (isspace c); rewrite ?IH; reflexivity.
Qed.

(** X5.  On a text that holds no tag and no character reference the
    sanitizer only normalises white space: its output is the tokens of
    the text joined by single spaces. *)
Theorem cleanup_text_plain (x : pystr) :
  re_search tag_re x = false ->
  re_search charref_re x = false ->
  cleanup_text (VStr x) = join (u " ") (split x).
Proof.
  intros Htag Href. unfold cleanup_text.
  destruct x as [ | c x ]; [ reflexivity | ].
  cbn [truthy isinstance_str negb orb].
  rewrite (re_sub_no_match tag_re _ Htag), (unescape_no_match _ Href).
  rewrite strip_collapse. unfold split.
  rewrite !split_from_replace_space; reflexivity.
Qed.

(** *** Dropping and blanking keep a text free of tags *)

Lemma thins_refl (t : pystr) : thins t t.
Proof. induction t; constructor; assumption. Qed.

Lemma thins_drop_prefix (pre t o : pystr) : thins t o -> thins (pre ++ t) o.
Proof. intros H. induction pre; [ exact H | now constructor ]. Qed.

Lemma thins_drop_suffix (t post : pystr) : thins (t ++ post) t.
Proof.
  induction t as [ | c t IH ]; simpl.
  - induction post; constructor; assumption.
  - now constructor.
Qed.

Lemma thins_in (t o : pystr) (c : char) :
  thins t o -> In c o -> c = c_space \/ In c t.
Proof.
  induction 1 as [ | k t o _ IH | k t o _ IH | k t o _ IH ]; simpl; intros Hin.
  - contradiction.
  - destruct (IH Hin); auto.
  - destruct Hin as [ -> | Hin ]; [ auto | destruct (IH Hin); auto ].
  - destruct Hin as [ <- | Hin ]; [ auto | destruct (IH Hin); auto ].
Qed.

Lemma index_of_in (c : char) (t : pystr) :
  index_of c t <> None -> In c t.
Proof.
  induction t as [ | x t IH ]; simpl; [ congruence | ].
  destruct (N.eqb_spec x c) as [ -> | _ ]; [ auto | ].
  destruct (index_of c t); [ intros _; right; apply IH; discriminate | simpl; congruence ].
Qed.

Lemma in_index_of (c : char) (t : pystr) :
  In c t -> index_of c t <> None.
Proof.
  induction t as [ | x t IH ]; simpl; [ tauto | ].
  destruct (N.eqb_spec x c) as [ -> | Hne ]; [ discriminate | ].
  intros [ Heq | Hin ]; [ congruence | ].
  destruct (index_of c t); [ discriminate | now apply IH in Hin ].
Qed.

Lemma re_search_tag_cons (c : char) (t : pystr) :
  re_search tag_re (c :: t)
  = if (c =? c_lt)%N
    then match index_of c_gt t with Some _ => true | None => re_search tag_re t end
    else re_search tag_re t.
Proof.
  cbn [re_search tag_re]. destruct (c =? c_lt)%N; [ | reflexivity ].
  destruct (index_of c_gt t); reflexivity.
Qed.

Lemma thins_no_tag (t o : pystr) :
  thins t o -> re_search tag_re t = false -> re_search tag_re o = false.
Proof.
  induction 1 as [ | k t o Hth IH | k t o Hth IH | k t o Hth IH ];
    rewrite ?re_search_tag_cons; intros Ht.
  - reflexivity.
  - apply IH. destruct (k =? c_lt)%N; [ | exact Ht ].
    now destruct (index_of c_gt t).
  - destruct (k =? c_lt)%N.
    + destruct (index_of c_gt t) eqn:Egt; [ discriminate | ].
      destruct (index_of c_gt o) eqn:Ego; [ | exact (IH Ht) ].
      exfalso. assert (Hin : In c_gt o) by (apply index_of_in; congruence).
      destruct (thins_in t o c_gt Hth Hin) as [ Hsp | Hin' ]; [ discriminate Hsp | ].
      now apply in_index_of in Hin'.
    + exact (IH Ht).
  - change (c_space =? c_lt)%N with false. cbv iota. apply IH.
    destruct (k =? c_lt)%N; [ | exact Ht ].
    now destruct (index_of c_gt t).
Qed.

Lemma replace_char_thins (old : char) (t : pystr) :
  thins t (replace_char old c_space t).
Proof.
  unfold replace_char. induction t as [ | c t IH ]; simpl; [ constructor | ].
  destruct (c =? old)%N; now constructor.
Qed.

Lemma dropwhile_thins (p : char -> bool) (t : pystr) : thins t (dropwhile p t).
Proof.
  rewrite <- (takewhile_dropwhile p t) at 1.
  apply thins_drop_prefix, thins_refl.
Qed.

Lemma rstrip_thins (t : pystr) : thins t (rstrip t).
Proof.
  destruct (rstrip_decompose t) as (g & _ & E). rewrite E at 1.
  apply thins_drop_suffix.
Qed.

Lemma collapse_thins (n : nat) (t : pystr) :
  length t <= n -> thins t (re_sub ws_re 0 t).
Proof.
  revert t. induction n as [ | n IH ]; intros t Hn.
  - destruct t; [ constructor | simpl in Hn; lia ].
  - destruct t as [ | c r ]; [ constructor | ]. simpl in Hn.
    destruct (isspace c) eqn:E.
    + rewrite (collapse_space_char c r E). apply thins_blank.
      rewrite <- (takewhile_dropwhile isspace r) at 1.
      apply thins_drop_prefix, IH.
      pose proof (dropwhile_length isspace r). lia.
    + rewrite (collapse_word_char c r E). apply thins_keep, IH. lia.
Qed.

Lemma index_of_skipn (c : char) (t : pystr) (i : nat) :
  index_of c t = Some i -> length (skipn (S i) t) < length t.
Proof.
  revert i. induction t as [ | x t IH ]; simpl; [ discriminate | ].
  destruct (x =? c)%N.
  - intros i [= <-]. simpl. lia.
  - destruct (index_of c t) as [ j | ]; [ | discriminate ].
    intros i [= <-]. specialize (IH j eq_refl).
    change (skipn (S (S j)) (x :: t)) with (skipn (S j) t).
    change (length (x :: t)) with (S (length t)). lia.
Qed.

Lemma strip_tags_cons (c : char) (r : pystr) :
  re_sub tag_re 0 (c :: r)
  = if (c =? c_lt)%N
    then match index_of c_gt r with
         | Some i => c_space :: re_sub tag_re 0 (skipn (S i) r)
         | None => c :: re_sub tag_re 0 r
         end
    else c :: re_sub tag_re 0 r.
Proof.
  cbn [re_sub tag_re]. destruct (c =? c_lt)%N; [ | reflexivity ].
  destruct (index_of c_gt r) as [ i | ]; [ | reflexivity ].
  cbn [app]. rewrite re_sub_skip. now replace (Nat.pred (i + 2)) with (S i) by lia.
Qed.

Lemma strip_tags_thins (n : nat) (t : pystr) :
  length t <= n -> thins t (re_sub tag_re 0 t).
Proof.
  revert t. induction n as [ | n IH ]; intros t Hn.
  - destruct t; [ constructor | simpl in Hn; lia ].
  - destruct t as [ | c r ]; [ constructor | ]. simpl in Hn.
    rewrite strip_tags_cons. destruct (c =? c_lt)%N.
    + destruct (index_of c_gt r) as [ i | ] eqn:E.
      * apply thins_blank. rewrite <- (firstn_skipn (S i) r) at 1.
        apply thins_drop_prefix, IH.
        pose proof (index_of_skipn c_gt r i E). lia.
      * apply thins_keep, IH. lia.
    + apply thins_keep, IH. lia.
Qed.

(** Stripping the tags leaves no tag. *)
Lemma strip_tags_no_tag (n : nat) (t : pystr) :
  length t <= n -> re_search tag_re (re_sub tag_re 0 t) = false.
Proof.
  revert t. induction n as [ | n IH ]; intros t Hn.
  - destruct t; [ reflexivity | simpl in Hn; lia ].
  - destruct t as [ | c r ]; [ reflexivity | ]. simpl in Hn.
    rewrite strip_tags_cons. destruct (c =? c_lt)%N eqn:Ec.
    + destruct (index_of c_gt r) as [ i | ] eqn:E.
      * rewrite re_search_tag_cons. change (c_space =? c_lt)%N with false. cbv iota.
        apply IH. pose proof (index_of_skipn c_gt r i E). lia.
      * rewrite re_search_tag_cons, Ec.
        destruct (index_of c_gt (re_sub tag_re 0 r)) eqn:Eo; [ | apply IH; lia ].
        exfalso. assert (Hin : In c_gt (re_sub tag_re 0 r))
          by (apply index_of_in; congruence).
        destruct (thins_in r _ c_gt (strip_tags_thins (length r) r (le_n _)) Hin)
          as [ Hsp | Hin' ]; [ discriminate Hsp | ].
        now apply in_index_of in Hin'.
    + rewrite re_search_tag_cons, Ec. apply IH. lia.
Qed.

Lemma existsb_false_not_in (c : char) (t : pystr) :
  existsb (N.eqb c) t = false -> ~ In c t.
Proof.
  intros H Hin. assert (Ht : existsb (N.eqb c) t = true).
  { apply existsb_exists. exists c. split; [ exact Hin | apply N.eqb_refl ]. }
  congruence.
Qed.

Lemma not_in_existsb_false (c : char) (t : pystr) :
  ~ In c t -> existsb (N.eqb c) t = false.
Proof.
  intros H. destruct (existsb (N.eqb c) t) eqn:E; [ | reflexivity ].
  apply existsb_exists in E as (x & Hx & Hc). apply N.eqb_eq in Hc. subst x. tauto.
Qed.

(** X6.  A tag can reach the output only through an entity: on a text
    without an ampersand the output of the sanitizer holds nothing that
    matches the tag pattern. *)
Theorem cleanup_text_no_tag_without_ampersand (x : pystr) :
  ~ In c_amp x ->
  re_search tag_re (cleanup_text (VStr x)) = false.
Proof.
  intros Hamp. unfold cleanup_text.
  destruct x as [ | c x ]; [ reflexivity | ].
  cbn [truthy isinstance_str negb orb].
  set (t := c :: x) in *.
  assert (Hamp' : existsb (N.eqb c_amp) (re_sub tag_re 0 t) = false).
  { apply not_in_existsb_false. intros Hin.
    destruct (thins_in t _ c_amp (strip_tags_thins (length t) t (le_n _)) Hin)
      as [ Hsp | Hin' ]; [ discriminate Hsp | tauto ]. }
  unfold unescape. rewrite Hamp'. cbn [negb].
  unfold strip, lstrip.
  apply (thins_no_tag _ _ (rstrip_thins _)).
  apply (thins_no_tag _ _ (dropwhile_thins isspace _)).
  apply (thins_no_tag _ _ (collapse_thins _ _ (le_n _))).
  apply (thins_no_tag _ _ (replace_char_thins c_lf _)).
  apply (thins_no_tag _ _ (replace_char_thins c_cr _)).
  apply (strip_tags_no_tag (length t) t (le_n _)).
Qed.

End SanitizerShape.

Lemma cleanup_text_plain_witness :
  re_search tag_re (u " a > b  and  c < d ") = false
  /\ re_search charref_re (u " a > b  and  c < d ") = false
  /\ cleanup_text (VStr (u " a > b  and  c < d ")) = u "a > b and c < d".
Proof.
  split; [ vm_compute; reflexivity | ]. split; [ vm_compute; reflexivity | ].
  rewrite (@cleanup_text_plain reference (u " a > b  and  c < d "))
    by (vm_compute; reflexivity).
  vm_compute. reflexivity.
Defined.

Lemma cleanup_text_no_tag_without_ampersand_witness :
  ~ In c_amp (u "<b>bold</b> and a > b")
  /\ re_search tag_re (cleanup_text (VStr (u "<b>bold</b> and a > b"))) = false.
Proof.
  assert (H : ~ In c_amp (u "<b>bold</b> and a > b")).
  { apply existsb_false_not_in. vm_compute. reflexivity. }
  split; [ exact H | ].
  exact (@cleanup_text_no_tag_without_ampersand reference _ H).
Defined.

(* ===================================================================== *)
(** ** The record mapper: what it raises, what it reads, what it writes *)
(* ===================================================================== *)

Section MapperMore.
Context {R : Runtime}.










End MapperMore.

Section MapperShape.
Context {R : Runtime}.

Lemma NoDup_fixed_keys (b : bool) (publisher : PyVal) :
  NoDup (dataset_keys ++ map fst (if b then [(u "publisher", publisher)] else [])).
Proof.
  assert (Hall : NoDup (dataset_keys ++ [u "publisher"])).
  { vm_compute.
    repeat (constructor;
            [ cbn [In]; intros Hin;
              repeat (destruct Hin as [ Hin | Hin ]; [ discriminate Hin | ]);
              exact Hin | ]).
    constructor. }
  destruct b; cbn [map fst]; [ exact Hall | ].
  rewrite app_nil_r. exact (NoDup_app_remove_r _ _ Hall).
Qed.

(** X8.  On every record the Dataset has the same fourteen keys in the
    same order, followed by [publisher] when the organization is truthy,
    and no key twice; [@context] and [@type] are constants, the
    description is a string, and keywords, creator, maintainer and
    distribution are lists, empty when the record has nothing for
    them. *)
Theorem dataset_shape (ckan_data out : dict) :
  map_to_schema_org ckan_data = inr out ->
  map fst out
  = dataset_keys
    ++ (if truthy (dict_get ckan_data (u "organization")) then [u "publisher"] else [])
  /\ NoDup (map fst out)
  /\ dict_get out (u "@context") = VStr (u "https://schema.org/")
  /\ dict_get out (u "@type") = VStr (u "Dataset")
  /\ isinstance_str (dict_get out (u "description")) = true
  /\ isinstance_list (dict_get out (u "keywords")) = true
  /\ isinstance_list (dict_get out (u "creator")) = true
  /\ isinstance_list (dict_get out (u "maintainer")) = true
  /\ isinstance_list (dict_get out (u "distribution")) = true.
Proof.
  intros H.
  destruct (map_to_schema_org_inv ckan_data out H)
    as (authors & maints & tags & resources & _ & _ & _ & _ & _ & _ & _ & _ & ->).
  assert (Hkeys : forall tail : dict,
             map fst ([ (u "@context", VStr (u "https://schema.org/"));
                        (u "@type", VStr (u "Dataset"));
                        (u "name", dict_get ckan_data (u "title"));
                        (u "description",
                         VStr (cleanup_text (dict_get ckan_data (u "notes"))));
                        (u "identifier", dict_get ckan_data (u "id"));
                        (u "url",
                         VStr (dataset_base_url ++ py_str (dict_get ckan_data (u "name"))));
                        (u "license",
                         if truthy (dict_get ckan_data (u "license_url"))
                         then dict_get ckan_data (u "license_url")
                         else dict_get ckan_data (u "license_title"));
                        (u "datePublished", dict_get ckan_data (u "metadata_created"));
                        (u "dateModified", dict_get ckan_data (u "metadata_modified"));
                        (u "inLanguage", dict_get ckan_data (u "language"));
                        (u "keywords", VList (map display_name (filter has_display_name tags)));
                        (u "creator",
                         VList (people_of (u "author_name") (u "author_email") authors));
                        (u "maintainer",
                         VList (people_of (u "maintainer_name") (u "maintainer_email") maints));
                        (u "distribution", VList (map download_of resources)) ] ++ tail)
             = dataset_keys ++ map fst tail).
  { intros tail. rewrite map_app. reflexivity. }
  split; [ rewrite Hkeys; f_equal;
           destruct (truthy (dict_get ckan_data (u "organization"))); reflexivity | ].
  split; [ | repeat split ].
  rewrite Hkeys. apply (NoDup_fixed_keys (truthy (dict_get ckan_data (u "organization"))) _).
Qed.

(** X9.  The Dataset depends on fourteen fields of the record and on nothing
    else: two records that agree on them are mapped alike, whether to a
    Dataset or to an exception. *)
Theorem map_to_schema_org_reads_only (r1 r2 : dict) :
  (forall k, In k mapper_fields -> dict_lookup r1 k = dict_lookup r2 k) ->
  map_to_schema_org r1 = map_to_schema_org r2.
Proof.
  intros H. unfold map_to_schema_org, dict_get, dict_get_default.
  repeat match goal with
         | |- context [ dict_lookup r1 ?k ] =>
             rewrite (H k) by (unfold mapper_fields; cbn [In]; auto 20)
         end.
  reflexivity.
Qed.

Lemma name_fields_falsy (name : PyVal) : truthy name = false -> name_fields name = [].
Proof. unfold name_fields, parse_person_name. now intros ->. Qed.

Lemma name_fields_str (s : pystr) :
  name_fields (VStr s)
  = match length (split s) with
    | 0 => []
    | 1 => [ (u "name", VStr s); (u "givenName", VStr s) ]
    | _ => [ (u "name", VStr s);
             (u "givenName", VStr (join (u " ") (removelast (split s))));
             (u "familyName", VStr (last (split s) [])) ]
    end.
Proof.
  unfold name_fields, parse_person_name. destruct s as [ | c s ]; [ reflexivity | ].
  cbn [truthy negb py_strip_split bind ret Monad_either]. rewrite split_strip.
  destruct (length (split (c :: s))) as [ | [ | n ] ]; reflexivity.
Qed.

Lemma person_of_named (nk ek : pystr) (entry : PyVal) :
  entry_ok nk entry = true ->
  has_name (person_of nk ek entry) = true ->
  exists s,
    dict_get (person_of nk ek entry) (u "@type") = VStr (u "Person")
    /\ dict_get (person_of nk ek entry) (u "name") = VStr s
    /\ 1 <= length (split s)
    /\ dict_has (person_of nk ek entry) (u "givenName") = true
    /\ dict_has (person_of nk ek entry) (u "familyName") = (2 <=? length (split s)).
Proof.
  destruct entry as [ | | | | | | e ]; try discriminate.
  unfold entry_ok, has_name, person_of.
  destruct (truthy (dict_get e nk)) eqn:Ht; cbn [negb orb].
  - destruct (dict_get e nk) as [ | | | | s | | ]; try discriminate. intros _.
    rewrite name_fields_str.
    destruct (length (split s)) as [ | [ | n ] ] eqn:Hlen;
      destruct (truthy (dict_get e ek)); try discriminate;
      intros _; exists s; rewrite ?Hlen;
      repeat split; solve [ reflexivity | lia ].
  - intros _. rewrite (name_fields_falsy _ Ht).
    destruct (truthy (dict_get e ek)); discriminate.
Qed.

(** X10.  Every Person of the creator and maintainer lists is a mapping typed
    [Person] whose name is a string with at least one token; it has a
    [givenName], and a [familyName] exactly when the name has two tokens
    or more. *)
Theorem persons_are_named (ckan_data out : dict) (person : PyVal) :
  map_to_schema_org ckan_data = inr out ->
  (exists people, dict_get out (u "creator") = VList people /\ In person people)
  \/ (exists people, dict_get out (u "maintainer") = VList people /\ In person people) ->
  exists p s,
    person = VDict p
    /\ dict_get p (u "@type") = VStr (u "Person")
    /\ dict_get p (u "name") = VStr s
    /\ 1 <= length (split s)
    /\ dict_has p (u "givenName") = true
    /\ dict_has p (u "familyName") = (2 <=? length (split s)).
Proof.
  intros H Hin.
  destruct (map_to_schema_org_inv ckan_data out H)
    as (authors & maints & tags & resources & _ & _ & _ & _ & Ha & Hm & _ & _ & ->).
  assert (Hpeople : forall nk ek entries,
             forallb (entry_ok nk) entries = true ->
             In person (people_of nk ek entries) ->
             exists p s,
               person = VDict p
               /\ dict_get p (u "@type") = VStr (u "Person")
               /\ dict_get p (u "name") = VStr s
               /\ 1 <= length (split s)
               /\ dict_has p (u "givenName") = true
               /\ dict_has p (u "familyName") = (2 <=? length (split s))).
  { intros nk ek entries Hok Hp. unfold people_of in Hp.
    apply in_map_iff in Hp as (p & <- & Hp).
    apply filter_In in Hp as [ Hp Hname ].
    apply in_map_iff in Hp as (entry & <- & Hentry).
    pose proof (proj1 (forallb_forall _ _) Hok entry Hentry) as Hentry_ok.
    destruct (person_of_named nk ek entry Hentry_ok Hname) as (s & Hs).
    exists (person_of nk ek entry), s. split; [ reflexivity | exact Hs ]. }
  destruct Hin as [ (people & Hl & Hp) | (people & Hl & Hp) ].
  - change (dict_get _ (u "creator"))
      with (VList (people_of (u "author_name") (u "author_email") authors)) in Hl.
    injection Hl as <-. exact (Hpeople _ _ _ Ha Hp).
  - change (dict_get _ (u "maintainer"))
      with (VList (people_of (u "maintainer_name") (u "maintainer_email") maints)) in Hl.
    injection Hl as <-. exact (Hpeople _ _ _ Hm Hp).
Qed.

(** X11.  The description of the Dataset and the description of every
    DataDownload went through the sanitizer: each is a string that is its
    own tokens joined by single spaces, the empty string when the record
    or the resource has no description. *)
Theorem descriptions_are_single_spaced (ckan_data out : dict) :
  map_to_schema_org ckan_data = inr out ->
  (exists s, dict_get out (u "description") = VStr s /\ single_spaced s)
  /\ (dict_lookup ckan_data (u "notes") = None ->
      dict_get out (u "description") = VStr [])
  /\ exists downloads,
       dict_get out (u "distribution") = VList downloads
       /\ Forall (fun download =>
                    exists d s,
                      download = VDict d
                      /\ dict_get d (u "description") = VStr s
                      /\ single_spaced s)
                 downloads.
Proof.
  intros H.
  destruct (map_to_schema_org_inv ckan_data out H)
    as (authors & maints & tags & resources & _ & _ & _ & _ & _ & _ & _ & _ & ->).
  split; [ eexists; split; [ reflexivity | apply cleanup_text_single_spaced ] | ].
  split.
  - intros Hnotes.
    change (dict_get _ (u "description"))
      with (VStr (cleanup_text (dict_get ckan_data (u "notes")))).
    unfold dict_get, dict_get_default. rewrite Hnotes. reflexivity.
  - eexists. split; [ reflexivity | ].
    apply Forall_forall. intros download Hin.
    apply in_map_iff in Hin as (res & <- & _).
    eexists. eexists. split; [ reflexivity | ].
    split; [ reflexivity | apply cleanup_text_single_spaced ].
Qed.

End MapperShape.

Lemma dataset_shape_witness :
  map_to_schema_org mock_ckan = inr mock_dataset
  /\ map fst mock_dataset = dataset_keys
  /\ NoDup (map fst mock_dataset).
Proof.
  assert (H : map_to_schema_org mock_ckan = inr mock_dataset)
    by (vm_compute; reflexivity).
  split; [ exact H | ].
  destruct (@dataset_shape reference mock_ckan mock_dataset H) as (Hkeys & Hnodup & _).
  split; [ rewrite Hkeys; vm_compute; reflexivity | exact Hnodup ].
Defined.

Lemma map_to_schema_org_reads_only_witness :
  (forall k, In k mapper_fields -> dict_lookup mock_ckan k = dict_lookup private_ckan k)
  /\ map_to_schema_org private_ckan = inr mock_dataset.
Proof.
  assert (H : forall k, In k mapper_fields ->
                        dict_lookup mock_ckan k = dict_lookup private_ckan k).
  { intros k Hin. unfold mapper_fields in Hin. cbn [In] in Hin.
    decompose [or] Hin; subst; try contradiction; vm_compute; reflexivity. }
  split; [ exact H | ].
  rewrite <- (@map_to_schema_org_reads_only reference mock_ckan private_ckan H).
  vm_compute. reflexivity.
Defined.

Lemma persons_are_named_witness :
  map_to_schema_org mock_ckan = inr mock_dataset
  /\ dict_get mock_dataset (u "creator") = VList [jane_smith]
  /\ exists p s,
       jane_smith = VDict p
       /\ dict_get p (u "@type") = VStr (u "Person")
       /\ dict_get p (u "name") = VStr s
       /\ 1 <= length (split s)
       /\ dict_has p (u "givenName") = true
       /\ dict_has p (u "familyName") = (2 <=? length (split s)).
Proof.
  assert (H : map_to_schema_org mock_ckan = inr mock_dataset)
    by (vm_compute; reflexivity).
  assert (Hc : dict_get mock_dataset (u "creator") = VList [jane_smith])
    by (vm_compute; reflexivity).
  split; [ exact H | ]. split; [ exact Hc | ].
  apply (@persons_are_named reference mock_ckan mock_dataset jane_smith H).
  left. exists [jane_smith]. split; [ exact Hc | left; reflexivity ].
Defined.

Lemma descriptions_are_single_spaced_witness :
  map_to_schema_org mock_ckan = inr mock_dataset
  /\ dict_get mock_dataset (u "description") = VStr (u "Description with tags")
  /\ single_spaced (u "Description with tags").
Proof.
  assert (H : map_to_schema_org mock_ckan = inr mock_dataset)
    by (vm_compute; reflexivity).
  split; [ exact H | ]. split; [ vm_compute; reflexivity | ].
  destruct (@descriptions_are_single_spaced reference mock_ckan mock_dataset H)
    as ((s & Hs & Hspaced) & _).
  vm_compute in Hs. injection Hs as <-. exact Hspaced.
Defined.

(* ===================================================================== *)
(** ** The fetch orchestrator *)
(* ===================================================================== *)

Section FetchFacts.
Context {R : Runtime} {H : Http}.

(** Unfolds one of the two fetch functions at a world and splits on what
    the request, the status, the body and the envelope are. *)
Ltac fetch_cases url w :=
  cbn [bind ret raise catch Monad_IO Exception_IO];
  unfold requests_get;
  destruct (http_get url w) as [ [ [ [ | ] [ [ | | | | | | d ] | ] ] | ] w' ];
  cbn [raise_for_status response_json status_ok json lift_py py_get
       bind ret raise catch Monad_IO Exception_IO Monad_either Exception_either fst snd];
  try (destruct (truthy (dict_get d (u "success"))) eqn:Hsuccess;
       cbn [py_getitem py_get lift_py bind ret raise Monad_IO Exception_IO
            Monad_either Exception_either];
       try (destruct (dict_lookup d (u "result")) as [ result | ] eqn:Hresult;
            cbn [lift_py ret raise Monad_either Exception_either])).

Lemma success_envelope_inv (r : Response) (result : PyVal) :
  success_envelope (Some r) result ->
  exists d, status_ok r = true /\ json r = Some (VDict d)
            /\ truthy (dict_get d (u "success")) = true
            /\ dict_lookup d (u "result") = Some result.
Proof.
  intros (r' & d & Hr & Hok & Hj & Hs & Hres). injection Hr as <-. eauto.
Qed.

Lemma no_envelope_without_response (result : PyVal) :
  ~ success_envelope None result.
Proof. intros (r & d & Hr & _). discriminate Hr. Qed.

(** Closes the goals that [fetch_cases] leaves for a statement of the
    form: the function returns some [v], [v] is the result of every
    success envelope, and [v] is the default or the result of one. *)
Ltac fetch_outcome :=
  eexists; split; [ reflexivity | ]; split;
  [ intros res Henv;
    try (exfalso; exact (no_envelope_without_response _ Henv));
    apply success_envelope_inv in Henv as (d' & Hok & Hj & Hs & Hres);
    cbn [status_ok json] in *; congruence
  | first [ left; reflexivity
          | right; do 2 eexists; repeat split; solve [ reflexivity | eassumption ] ] ].

(** X12.  [fetch_package_list] never raises and makes exactly one request,
    to the [package_list] address.  It returns the [result] of the
    envelope when the request goes through with a good status and a body
    that is a mapping with a truthy [success] and a [result] key, and the
    empty list in every other case: a failed request, an error status, a
    body that is not JSON or not a mapping, a falsy [success], a missing
    [result]. *)
Theorem fetch_package_list_cases (w : World) :
  exists v,
    fetch_package_list w = (inr v, snd (http_get package_list_url w))
    /\ (forall result,
          success_envelope (fst (http_get package_list_url w)) result -> v = result)
    /\ (v = VList [] \/ success_envelope (fst (http_get package_list_url w)) v).
Proof.
  unfold fetch_package_list.
  change (BASE_URL ++ u "/package_list") with package_list_url.
  fetch_cases package_list_url w; fetch_outcome.
Qed.

(** X13.  [fetch_package_details] never raises and makes exactly one
    request, to the [package_show] address with the package id rendered
    by [str] (not URL-encoded).  It returns the [result] of a success
    envelope, whatever its type, and the empty mapping in every other
    case. *)
Theorem fetch_package_details_cases (package_id : PyVal) (w : World) :
  exists v,
    fetch_package_details package_id w
    = (inr v, snd (http_get (package_show_url package_id) w))
    /\ (forall result,
          success_envelope (fst (http_get (package_show_url package_id) w)) result ->
          v = result)
    /\ (v = VDict []
        \/ success_envelope (fst (http_get (package_show_url package_id) w)) v).
Proof.
  unfold fetch_package_details.
  change (BASE_URL ++ u "/package_show?id=" ++ py_str package_id)
    with (package_show_url package_id).
  fetch_cases (package_show_url package_id) w; fetch_outcome.
Qed.

(** *** What [main] needs of the two *)

Lemma fetch_package_list_returns (w : World) :
  exists v,
    fetch_package_list w = (inr v, snd (http_get package_list_url w))
    /\ (truthy v = true -> success_envelope (fst (http_get package_list_url w)) v).
Proof.
  unfold fetch_package_list.
  change (BASE_URL ++ u "/package_list") with package_list_url.
  fetch_cases package_list_url w;
    (eexists; split; [ reflexivity | ]);
    first [ intros Ht; discriminate Ht
          | intros _; do 2 eexists; repeat split; solve [ reflexivity | eassumption ] ].
Qed.

Lemma fetch_package_list_on_envelope (w : World) (package_names : PyVal) :
  success_envelope (fst (http_get package_list_url w)) package_names ->
  fetch_package_list w = (inr package_names, snd (http_get package_list_url w)).
Proof.
  unfold fetch_package_list.
  change (BASE_URL ++ u "/package_list") with package_list_url.
  fetch_cases package_list_url w; intros Henv;
    try (exfalso; exact (no_envelope_without_response _ Henv));
    apply success_envelope_inv in Henv as (d' & Hok & Hj & Hs & Hres);
    cbn [status_ok json] in *; congruence.
Qed.

Lemma fetch_package_details_returns (package_id : PyVal) (w : World) :
  fetch_package_details package_id w
  = (inr (fst (fetched package_id w)), snd (fetched package_id w)).
Proof.
  unfold fetched, fetch_package_details.
  fetch_cases (BASE_URL ++ u "/package_show?id=" ++ py_str package_id) w;
    reflexivity.
Qed.

Lemma main_loop_cons (name : PyVal) (rest all_schema_metadata : list PyVal) (w : World) :
  main_loop (name :: rest) all_schema_metadata w
  = if truthy (fst (fetched name w))
    then match map_fetched (fst (fetched name w)) with
         | inr schema_data =>
             main_loop rest (all_schema_metadata ++ [VDict schema_data])
                       (snd (fetched name w))
         | inl e => (inl (Raised e), snd (fetched name w))
         end
    else main_loop rest all_schema_metadata (snd (fetched name w)).
Proof.
  cbn [main_loop]. cbn [bind Monad_IO].
  rewrite fetch_package_details_returns.
  destruct (truthy (fst (fetched name w))); [ | reflexivity ].
  unfold lift_py. destruct (map_fetched (fst (fetched name w))); reflexivity.
Qed.

Lemma fetch_all_cons (name : PyVal) (rest : list PyVal) (w : World) :
  fetch_all (name :: rest) w
  = (fst (fetched name w) :: fst (fetch_all rest (snd (fetched name w))),
     snd (fetch_all rest (snd (fetched name w)))).
Proof.
  cbn [fetch_all]. destruct (fetched name w) as [ m w1 ]. cbn [fst snd].
  destruct (fetch_all rest w1); reflexivity.
Qed.

Lemma Forall2_cons_l {A B : Type} (P : A -> B -> Prop) (x : A) (l : list A)
    (outs : list B) :
  Forall2 P (x :: l) outs ->
  exists y outs', outs = y :: outs' /\ P x y /\ Forall2 P l outs'.
Proof. inversion 1; eauto. Qed.

Lemma main_loop_maps (names all_schema_metadata : list PyVal) (w : World)
    (datasets : list dict) :
  Forall2 (fun ckan_metadata schema_data => map_fetched ckan_metadata = inr schema_data)
          (filter truthy (fst (fetch_all names w))) datasets ->
  main_loop names all_schema_metadata w
  = (inr (all_schema_metadata ++ map VDict datasets), snd (fetch_all names w)).
Proof.
  revert all_schema_metadata w datasets.
  induction names as [ | name rest IH ]; intros acc w datasets Hmap.
  - inversion Hmap. cbn [map]. now rewrite app_nil_r.
  - rewrite main_loop_cons. rewrite fetch_all_cons in Hmap |- *.
    cbn [fst snd filter] in Hmap |- *.
    destruct (truthy (fst (fetched name w))).
    + apply Forall2_cons_l in Hmap as (out & outs & -> & Hm & Hrest).
      rewrite Hm, (IH _ _ _ Hrest). cbn [map]. now rewrite <- app_assoc.
    + exact (IH _ _ _ Hmap).
Qed.

Lemma main_loop_app_aborts (names1 : list PyVal) (name : PyVal) (names2 : list PyVal)
    (all_schema_metadata : list PyVal) (w : World) (datasets : list dict) (e : PyExc) :
  Forall2 (fun ckan_metadata schema_data => map_fetched ckan_metadata = inr schema_data)
          (filter truthy (fst (fetch_all names1 w))) datasets ->
  truthy (fst (fetched name (snd (fetch_all names1 w)))) = true ->
  map_fetched (fst (fetched name (snd (fetch_all names1 w)))) = inl e ->
  main_loop (names1 ++ name :: names2) all_schema_metadata w
  = (inl (Raised e), snd (fetched name (snd (fetch_all names1 w)))).
Proof.
  revert all_schema_metadata w datasets.
  induction names1 as [ | n rest IH ]; intros acc w datasets Hmap Ht He.
  - cbn [app fetch_all fst snd] in *. now rewrite main_loop_cons, Ht, He.
  - cbn [app]. rewrite main_loop_cons. rewrite fetch_all_cons in Hmap, Ht, He |- *.
    cbn [fst snd filter] in Hmap, Ht, He |- *.
    destruct (truthy (fst (fetched n w))).
    + apply Forall2_cons_l in Hmap as (out & outs & -> & Hm & Hrest).
      rewrite Hm. exact (IH _ _ _ Hrest Ht He).
    + exact (IH _ _ _ Hmap Ht He).
Qed.


Lemma main_unfold (w : World) :
  main w
  = match fetch_package_list w with
    | (inr package_names, w0) =>
        if truthy package_names
        then match py_iter package_names with
             | inr names =>
                 match main_loop names [] w0 with
                 | (inr all_schema_metadata, w1) => (inr (Saved all_schema_metadata), w1)
                 | (inl e, w1) => (inl e, w1)
                 end
             | inl e => (inl (Raised e), w0)
             end
        else (inr NoPackages, w0)
    | (inl e, w0) => (inl e, w0)
    end.
Proof.
  unfold main. cbn [bind ret Monad_IO].
  destruct (fetch_package_list w) as [ [ e | package_names ] w0 ]; [ reflexivity | ].
  destruct (truthy package_names); [ | reflexivity ].
  cbn [negb]. unfold lift_py. destruct (py_iter package_names); reflexivity.
Qed.

(** X14.  When the listing gives nothing truthy, whether the request
    failed, the envelope reported no success or the list was empty,
    [main] ends with the warning after that one request: it asks for no
    package and writes no file. *)
Theorem main_stops_without_packages (w : World) :
  (forall result,
      success_envelope (fst (http_get package_list_url w)) result ->
      truthy result = false) ->
  main w = (inr NoPackages, snd (http_get package_list_url w)).
Proof.
  intros Hnone. rewrite main_unfold.
  destruct (fetch_package_list_returns w) as (v & -> & Hv).
  destruct (truthy v) eqn:Ht; [ | reflexivity ].
  specialize (Hnone v (Hv eq_refl)). congruence.
Qed.

(** X15.  When the listing succeeds with a truthy value, [main] asks for
    every package in the order listed, one request each; a package whose
    record comes back falsy (a failed request, or an empty record) is
    skipped; and when every other record maps, the Datasets saved are
    those of the truthy records, in the order listed.  The mapping goes
    on between the requests, but the result is that of fetching all
    first. *)
Theorem main_saves_mapped_records (w : World) (package_names : PyVal)
    (names : list PyVal) (datasets : list dict) :
  success_envelope (fst (http_get package_list_url w)) package_names ->
  truthy package_names = true ->
  py_iter package_names = inr names ->
  Forall2 (fun ckan_metadata schema_data => map_fetched ckan_metadata = inr schema_data)
          (filter truthy (fst (fetch_all names (snd (http_get package_list_url w)))))
          datasets ->
  main w = (inr (Saved (map VDict datasets)),
            snd (fetch_all names (snd (http_get package_list_url w))))
  /\ length datasets <= length names.
Proof.
  intros Henv Ht Hiter Hmap. split.
  - rewrite main_unfold.
    rewrite (fetch_package_list_on_envelope w package_names Henv), Ht, Hiter.
    rewrite (main_loop_maps names [] _ datasets Hmap). reflexivity.
  - rewrite <- (Forall2_length Hmap).
    etransitivity; [ apply filter_length_le | ].
    clear. generalize (snd (http_get package_list_url w)).
    induction names as [ | name rest IH ]; intros w0; [ apply le_n | ].
    rewrite fetch_all_cons. cbn [fst length]. apply le_n_S, IH.
Qed.

(** X16.  [main] stops at the first package whose truthy record the
    mapper refuses: the exception of the mapper leaves [main], the
    packages listed after it are never asked for, and nothing is saved,
    not even the Datasets mapped before it. *)
Theorem main_aborts_at_first_failure (w : World) (package_names : PyVal)
    (names1 : list PyVal) (name : PyVal) (names2 : list PyVal)
    (datasets : list dict) (e : PyExc) :
  success_envelope (fst (http_get package_list_url w)) package_names ->
  truthy package_names = true ->
  py_iter package_names = inr (names1 ++ name :: names2) ->
  Forall2 (fun ckan_metadata schema_data => map_fetched ckan_metadata = inr schema_data)
          (filter truthy (fst (fetch_all names1 (snd (http_get package_list_url w)))))
          datasets ->
  truthy (fst (fetched name (snd (fetch_all names1 (snd (http_get package_list_url w))))))
  = true ->
  map_fetched (fst (fetched name (snd (fetch_all names1 (snd (http_get package_list_url w))))))
  = inl e ->
  main w = (inl (Raised e),
            snd (fetched name (snd (fetch_all names1 (snd (http_get package_list_url w)))))).
Proof.
  intros Henv Ht Hiter Hmap Hrec He.
  rewrite main_unfold.
  rewrite (fetch_package_list_on_envelope w package_names Henv), Ht, Hiter.
  rewrite (main_loop_app_aborts names1 name names2 [] _ datasets e Hmap Hrec He).
  reflexivity.
Qed.


Lemma map_fetched_dataset (ckan_metadata : PyVal) (schema_data : dict) :
  map_fetched ckan_metadata = inr schema_data -> is_dataset (VDict schema_data).
Proof.
  destruct ckan_metadata as [ | | | | | | ckan_data ]; try discriminate.
  intros Hmap. exists schema_data. split; [ reflexivity | ].
  destruct (map_to_schema_org_inv ckan_data schema_data Hmap)
    as (authors & maints & tags & resources & _ & _ & _ & _ & _ & _ & _ & _ & ->).
  reflexivity.
Qed.

Lemma main_loop_keeps_datasets (names all_schema_metadata : list PyVal) (w w' : World)
    (saved : list PyVal) :
  Forall is_dataset all_schema_metadata ->
  main_loop names all_schema_metadata w = (inr saved, w') ->
  Forall is_dataset saved /\ length saved <= length all_schema_metadata + length names.
Proof.
  revert all_schema_metadata w.
  induction names as [ | name rest IH ]; intros acc w Hacc Hrun.
  - injection Hrun as <- _. split; [ exact Hacc | cbn [length]; lia ].
  - rewrite main_loop_cons in Hrun. cbn [length].
    destruct (truthy (fst (fetched name w))).
    + destruct (map_fetched (fst (fetched name w))) as [ e | out ] eqn:Hm;
        [ discriminate Hrun | ].
      assert (Hacc' : Forall is_dataset (acc ++ [VDict out])).
      { apply Forall_app. split; [ exact Hacc | ].
        constructor; [ exact (map_fetched_dataset _ _ Hm) | constructor ]. }
      destruct (IH _ _ Hacc' Hrun) as [ Hall Hlen ].
      split; [ exact Hall | ]. rewrite length_app in Hlen. cbn [length] in Hlen. lia.
    + destruct (IH acc _ Hacc Hrun) as [ Hall Hlen ]. split; [ exact Hall | lia ].
Qed.

(** X18.  Whenever [main] gets to saving, every element of the list it
    saves is a mapping typed [Dataset], made by the mapper from a record
    that was fetched; the list can be empty (every package came back
    falsy) and has no more elements than the listing has names. *)
Theorem main_saves_only_datasets (w w' : World) (saved : list PyVal) :
  main w = (inr (Saved saved), w') ->
  Forall is_dataset saved
  /\ exists package_names names,
       success_envelope (fst (http_get package_list_url w)) package_names
       /\ py_iter package_names = inr names
       /\ length saved <= length names.
Proof.
  rewrite main_unfold.
  destruct (fetch_package_list_returns w) as (v & -> & Hv).
  destruct (truthy v); [ | discriminate ].
  destruct (py_iter v) as [ e | names ] eqn:Hiter; [ discriminate | ].
  destruct (main_loop names [] (snd (http_get package_list_url w)))
    as [ [ e | l ] w1 ] eqn:Hloop; [ discriminate | ].
  intros [= <- <-].
  destruct (main_loop_keeps_datasets names [] _ _ l (Forall_nil _) Hloop) as [ Hall Hlen ].
  split; [ exact Hall | ].
  exists v, names. split; [ exact (Hv eq_refl) | ]. split; [ exact Hiter | exact Hlen ].
Qed.

End FetchFacts.

(** *** The orchestrator on the example catalogs *)

Lemma main_stops_without_packages_witness :
  @main reference (serving []) 0 = (inr NoPackages, 1).
Proof.
  apply (@main_stops_without_packages reference (serving []) 0).
  intros result Henv. exfalso. exact (no_envelope_without_response result Henv).
Defined.

Lemma main_saves_mapped_records_witness :
  @main reference (serving catalog) 0
  = (inr (Saved [VDict air_dataset; VDict water_dataset]), 4)
  /\ 2 <= 3.
Proof.
  apply (@main_saves_mapped_records reference (serving catalog) 0
           (VList [VStr (u "air"); VStr (u "gone"); VStr (u "water")])
           [VStr (u "air"); VStr (u "gone"); VStr (u "water")]
           [air_dataset; water_dataset]).
  - eexists. eexists. repeat split; vm_compute; reflexivity.
  - reflexivity.
  - reflexivity.
  - replace (filter truthy
               (fst (@fetch_all reference (serving catalog)
                       [VStr (u "air"); VStr (u "gone"); VStr (u "water")]
                       (snd (@http_get (serving catalog) package_list_url 0)))))
      with [VDict air_record; VDict water_record] by (vm_compute; reflexivity).
    repeat constructor; vm_compute; reflexivity.
Defined.

Lemma main_aborts_at_first_failure_witness :
  @main reference (serving odd_catalog) 0 = (inl (Raised AttributeError), 3).
Proof.
  apply (@main_aborts_at_first_failure reference (serving odd_catalog) 0
           (VList [VStr (u "air"); VStr (u "odd"); VStr (u "water")])
           [VStr (u "air")] (VStr (u "odd")) [VStr (u "water")]
           [air_dataset] AttributeError).
  - eexists. eexists. repeat split; vm_compute; reflexivity.
  - reflexivity.
  - reflexivity.
  - replace (filter truthy
               (fst (@fetch_all reference (serving odd_catalog) [VStr (u "air")]
                       (snd (@http_get (serving odd_catalog) package_list_url 0)))))
      with [VDict air_record] by (vm_compute; reflexivity).
    repeat constructor; vm_compute; reflexivity.
  - vm_compute. reflexivity.
  - vm_compute. reflexivity.
Defined.

Lemma main_saves_only_datasets_witness :
  @main reference (serving catalog) 0
  = (inr (Saved [VDict air_dataset; VDict water_dataset]), 4)
  /\ Forall is_dataset [VDict air_dataset; VDict water_dataset].
Proof.
  assert (H : @main reference (serving catalog) 0
              = (inr (Saved [VDict air_dataset; VDict water_dataset]), 4))
    by (vm_compute; reflexivity).
  split; [ exact H | ].
  exact (proj1 (@main_saves_only_datasets reference (serving catalog) 0 4 _ H)).
Defined.
